(** * State trackers of the function-execution agent (package [agent])

    A shallow embedding of the request and container state trackers
    ([requestState], [containerState]) together with the telemetry and
    slot-queue notifications every accepted transition fans out to, followed
    by the properties the design document states about them. *)

From Stdlib Require Import ZArith Ascii String List Bool Lia Sorted.
From stdpp Require Import base list.
Import ListNotations.

Local Open Scope string_scope.
Local Open Scope list_scope.
Local Open Scope Z_scope.

(** ** Time (package [time] of the Go library)

    An instant is the number of nanoseconds elapsed since the zero instant
    (the value of an uninitialised [time.Time]); a [Duration] is a signed
    64-bit count of nanoseconds.  [time.Now()] is an input of the model:
    the functions below take the instant it reads as [clock], and the
    statements that need the clock to be past the zero instant say so with
    [IsZero clock = false]. *)

Definition Time := Z.
Definition Duration := Z.

Definition Time_zero : Time := 0.
Definition IsZero (t : Time) : bool := t =? 0.

Definition minDuration : Duration := - 2 ^ 63.
Definition maxDuration : Duration := 2 ^ 63 - 1.
Definition Millisecond : Duration := 1000000.

(** [t.Sub(u)]: the difference, saturated at the ends of [Duration]. *)
Definition Time_Sub (t u : Time) : Duration :=
  if t - u <? minDuration then minDuration
  else if maxDuration <? t - u then maxDuration
  else t - u.

(** Integer division of Go truncates toward zero. *)
Definition Duration_div (d unit : Duration) : Z := Z.quot d unit.

(** ** Enumerations

    A [const ( ... = iota ... )] block gives the k-th name of the block the
    value k. *)

Definition RequestStateType := Z.
Definition ContainerStateType := Z.

Definition iota_block (names : list string) : list (string * Z) :=
  imap (fun k name => (name, Z.of_nat k)) names.

Fixpoint const_lookup (blk : list (string * Z)) (name : string) : option Z :=
  match blk with
  | [] => None
  | (n, v) :: rest => if String.eqb n name then Some v else const_lookup rest name
  end.

Definition const_value (blk : list (string * Z)) (name : string) : Z :=
  default 0 (const_lookup blk name).

Definition RequestState_consts : list (string * Z) :=
  iota_block
    [ "RequestStateNone"; "RequestStateWait"; "RequestStateExec";
      "RequestStateDone"; "RequestStateMax" ].

Definition ContainerState_consts : list (string * Z) :=
  iota_block
    [ "ContainerStateNone"; "ContainerStateWait"; "ContainerStateStart";
      "ContainerStateIdle"; "ContainerStatePaused"; "ContainerStateBusy";
      "ContainerStateDone"; "ContainerStateMax" ].

Definition RequestStateNone : RequestStateType :=
  Eval cbv in const_value RequestState_consts "RequestStateNone".
Definition RequestStateWait : RequestStateType :=
  Eval cbv in const_value RequestState_consts "RequestStateWait".
Definition RequestStateExec : RequestStateType :=
  Eval cbv in const_value RequestState_consts "RequestStateExec".
Definition RequestStateDone : RequestStateType :=
  Eval cbv in const_value RequestState_consts "RequestStateDone".
Definition RequestStateMax : RequestStateType :=
  Eval cbv in const_value RequestState_consts "RequestStateMax".

Definition ContainerStateNone : ContainerStateType :=
  Eval cbv in const_value ContainerState_consts "ContainerStateNone".
Definition ContainerStateWait : ContainerStateType :=
  Eval cbv in const_value ContainerState_consts "ContainerStateWait".
Definition ContainerStateStart : ContainerStateType :=
  Eval cbv in const_value ContainerState_consts "ContainerStateStart".
Definition ContainerStateIdle : ContainerStateType :=
  Eval cbv in const_value ContainerState_consts "ContainerStateIdle".
Definition ContainerStatePaused : ContainerStateType :=
  Eval cbv in const_value ContainerState_consts "ContainerStatePaused".
Definition ContainerStateBusy : ContainerStateType :=
  Eval cbv in const_value ContainerState_consts "ContainerStateBusy".
Definition ContainerStateDone : ContainerStateType :=
  Eval cbv in const_value ContainerState_consts "ContainerStateDone".
Definition ContainerStateMax : ContainerStateType :=
  Eval cbv in const_value ContainerState_consts "ContainerStateMax".

(** The real states, the sentinel left out. *)
Definition RequestState_real : list RequestStateType :=
  [ RequestStateNone; RequestStateWait; RequestStateExec; RequestStateDone ].

Definition ContainerState_real : list ContainerStateType :=
  [ ContainerStateNone; ContainerStateWait; ContainerStateStart;
    ContainerStateIdle; ContainerStatePaused; ContainerStateBusy;
    ContainerStateDone ].

Definition request_defined (s : RequestStateType) : Prop :=
  0 <= s < RequestStateMax.
Definition container_defined (s : ContainerStateType) : Prop :=
  0 <= s < ContainerStateMax.

(** ** Arrays

    [[n]T{e0, e1, ...}] has exactly [n] elements, the ones that are not
    written being the zero value of [T]; indexing outside [0, n) panics. *)

Definition array_lit {A} (n : Z) (zero : A) (elems : list A) : list A :=
  elems ++ replicate (Z.to_nat n - length elems)%nat zero.

Definition array_get {A} (tbl : list A) (i : Z) : option A :=
  if i <? 0 then None else tbl !! Z.to_nat i.

Definition containerStateKeys : list string :=
  array_lit ContainerStateMax ""
    [ "none"; "wait"; "start"; "idle"; "paused"; "busy"; "done" ].

Definition containerGaugeKeys : list string :=
  array_lit ContainerStateMax ""
    [ "";
      "container_wait_total";
      "container_start_total";
      "container_idle_total";
      "container_paused_total";
      "container_busy_total" ].

Definition containerTimeKeys : list string :=
  array_lit ContainerStateMax ""
    [ "";
      "container_wait_duration_seconds";
      "container_start_duration_seconds";
      "container_idle_duration_seconds";
      "container_paused_duration_seconds";
      "container_busy_duration_seconds" ].

(** ** Collaborators: tagging contexts, measures, the slot queue *)

(** Modelled from the spec: the tag keys [appIdKey], [functionIdKey] and
    [imageNameKey] are declared elsewhere in the package, and the tagging
    functions belong to the opencensus library.  A context is kept as the
    list of tags it carries.  A tag value is valid when it has at most 255
    bytes, all of them printable ASCII; [tag.Upsert] replaces or adds a tag
    and fails on an invalid value; [tag.New] checks the values the context
    already carries, applies the mutators in turn, and on any failure
    returns the context it was given together with the error. *)
Inductive TagKey := appIdKey | functionIdKey | imageNameKey | otherKey (name : string).

Definition TagKey_eqb (a b : TagKey) : bool :=
  match a, b with
  | appIdKey, appIdKey | functionIdKey, functionIdKey
  | imageNameKey, imageNameKey => true
  | otherKey x, otherKey y => String.eqb x y
  | _, _ => false
  end.

Definition Context := list (TagKey * string).

Definition maxKeyLength : nat := 255.

Definition printable (a : ascii) : bool :=
  ((32 <=? nat_of_ascii a) && (nat_of_ascii a <=? 126))%nat.

Fixpoint isASCII (v : string) : bool :=
  match v with
  | EmptyString => true
  | String a rest => printable a && isASCII rest
  end.

Definition checkValue (v : string) : bool :=
  (String.length v <=? maxKeyLength)%nat && isASCII v.

Inductive tagError := errInvalidValue.

(** A mutator changes the tag map or fails. *)
Definition Mutator := Context -> option Context.

Fixpoint upsert (k : TagKey) (v : string) (m : Context) : Context :=
  match m with
  | [] => [(k, v)]
  | (k', v') :: rest =>
      if TagKey_eqb k' k then (k, v) :: rest else (k', v') :: upsert k v rest
  end.

Definition tag_Upsert (k : TagKey) (v : string) : Mutator :=
  fun m => if checkValue v then Some (upsert k v m) else None.

Fixpoint mutate (mutators : list Mutator) (m : Context) : option Context :=
  match mutators with
  | [] => Some m
  | f :: rest =>
      match f m with
      | Some m' => mutate rest m'
      | None => None
      end
  end.

Definition tag_New (ctx : Context) (mutators : list Mutator)
  : Context * option tagError :=
  if forallb (fun kv => checkValue kv.2) ctx
  then match mutate mutators ctx with
       | Some m => (m, None)
       | None => (ctx, Some errInvalidValue)
       end
  else (ctx, Some errInvalidValue).

Fixpoint tag_value (ctx : Context) (k : TagKey) : option string :=
  match ctx with
  | [] => None
  | (k', v) :: rest => if TagKey_eqb k' k then Some v else tag_value rest k
  end.

(** Modelled from the spec: the measure handles [hotFunctionMeasure],
    [containerGaugeMeasures] and [containerTimeMeasures] are declared
    elsewhere in the package; an entry of a per-state table is named by the
    table and the state that indexes it. *)
Inductive Measure :=
| hotFunctionMeasure
| containerGaugeMeasures (s : ContainerStateType)
| containerTimeMeasures (s : ContainerStateType).

(** Modelled from the spec: the slot queue is declared elsewhere in the
    package; only its identity and the four hooks the trackers call are
    kept. *)
Inductive slotQueue := SlotQueue (key : string).

(** What a call does to its collaborators, in program order. *)
Inductive event :=
| stats_Record (ctx : Context) (m : Measure) (v : Z)
| enterRequestState (q : slotQueue) (s : RequestStateType)
| exitRequestState (q : slotQueue) (s : RequestStateType)
| enterContainerState (q : slotQueue) (s : ContainerStateType)
| exitContainerState (q : slotQueue) (s : ContainerStateType).

(** The [call] record, as far as the tracker reads it; [slots] is a pointer
    that may be nil. *)
Record call := mkCall {
  AppID : string;
  FnID : string;
  Image : string;
  slots : option slotQueue
}.

(** ** Effects: the events emitted so far, and whether the code panicked *)

Definition Eff (A : Type) : Type := list event * option A.

Definition ret {A} (a : A) : Eff A := ([], Some a).

Definition bind {A B} (m : Eff A) (f : A -> Eff B) : Eff B :=
  match m with
  | (tr, None) => (tr, None)
  | (tr, Some a) => let '(tr', r) := f a in (tr ++ tr', r)
  end.

Definition emit (e : event) : Eff unit := ([e], Some tt).

Definition index {A} (tbl : list A) (i : Z) : Eff A :=
  match array_get tbl i with
  | Some a => ret a
  | None => ([], None)
  end.

Declare Scope eff_scope.
Delimit Scope eff_scope with eff.
Notation "x <- m ;; k" := (bind m (fun x => k))
  (at level 100, m at next level, k at level 200, right associativity) : eff_scope.
Notation "m ;; k" := (bind m (fun _ => k))
  (at level 100, k at level 200, right associativity) : eff_scope.

Definition events {A} (m : Eff A) : list event := fst m.
Definition returns {A} (m : Eff A) : Prop := is_Some (snd m).

(** ** The trackers *)

Record containerState := mkContainerState {
  c_state : ContainerStateType;
  c_start : Time
}.

Record requestState := mkRequestState {
  r_state : RequestStateType;
  r_start : Time
}.

Definition NewRequestState : requestState := mkRequestState 0 Time_zero.
Definition NewContainerState : containerState := mkContainerState 0 Time_zero.

(** *** requestState.UpdateState *)

(** The locals of the call, as they stand at [c.lock.Unlock()]. *)
Record requestLocals := mkRequestLocals {
  rl_now : Time;
  rl_oldState : RequestStateType
}.

(** Between [Lock] and [Unlock]; [clock] is what [time.Now()] reads. *)
Definition requestState_locked (newState : RequestStateType) (clock : Time)
    (c : requestState) : requestState * requestLocals :=
  if r_state c <? newState
  then (mkRequestState newState clock, mkRequestLocals clock (r_state c))
  else (c, mkRequestLocals Time_zero 0).

(** After [Unlock]. *)
Definition requestState_notify (newState : RequestStateType)
    (slots : option slotQueue) (l : requestLocals) : Eff unit :=
  if IsZero (rl_now l) then ret tt
  else
    match slots with
    | Some q =>
        (emit (enterRequestState q newState) ;;
         emit (exitRequestState q (rl_oldState l)))%eff
    | None => ret tt
    end.

Definition requestState_UpdateState (newState : RequestStateType)
    (slots : option slotQueue) (clock : Time) (c : requestState)
  : requestState * Eff unit :=
  let '(c', l) := requestState_locked newState clock c in
  (c', requestState_notify newState slots l).

(** *** containerState *)

Definition isIdleState (state : ContainerStateType) : bool :=
  (state =? ContainerStateIdle) || (state =? ContainerStatePaused).

Definition containerState_GetState (c : containerState) : option string :=
  array_get containerStateKeys (c_state c).

Definition setHot (ctx : Context) (appId fnId imageName : string)
    (state : ContainerStateType) : Eff unit :=
  if negb (state =? ContainerStateStart) && negb (state =? ContainerStateDone)
  then ret tt
  else
    (* ctx, _ = tag.New(...): the error is dropped *)
    let ctx := (tag_New ctx [ tag_Upsert appIdKey appId;
                              tag_Upsert functionIdKey fnId;
                              tag_Upsert imageNameKey imageName ]).1 in
    let isHotState := if state =? ContainerStateStart then 1 else -1 in
    emit (stats_Record ctx hotFunctionMeasure isHotState).

Record containerLocals := mkContainerLocals {
  cl_now : Time;
  cl_oldState : ContainerStateType;
  cl_before : Time
}.

Definition containerState_locked (newState : ContainerStateType) (clock : Time)
    (c : containerState) : containerState * containerLocals :=
  if (c_state c <? newState)
     || ((c_state c =? ContainerStatePaused) && (newState =? ContainerStateIdle))
     || ((c_state c =? ContainerStateBusy) && isIdleState newState)
  then (mkContainerState newState clock,
        mkContainerLocals clock (c_state c) (c_start c))
  else (c, mkContainerLocals Time_zero 0 Time_zero).

Definition containerState_report (ctx : Context) (newState : ContainerStateType)
    (cl : call) (l : containerLocals) : Eff unit :=
  if IsZero (cl_now l) then ret tt
  else
    ((match slots cl with
      | Some q =>
          setHot ctx (AppID cl) (FnID cl) (Image cl) newState ;;
          emit (enterContainerState q newState) ;;
          emit (exitContainerState q (cl_oldState l))
      | None => ret tt
      end) ;;
     gaugeKey <- index containerGaugeKeys (cl_oldState l) ;;
     (if String.eqb gaugeKey "" then ret tt
      else emit (stats_Record ctx (containerGaugeMeasures (cl_oldState l)) (-1))) ;;
     timeKey <- index containerTimeKeys (cl_oldState l) ;;
     (if String.eqb timeKey "" then ret tt
      else emit (stats_Record ctx (containerTimeMeasures (cl_oldState l))
                   (Duration_div (Time_Sub (cl_now l) (cl_before l)) Millisecond))) ;;
     gaugeKey <- index containerGaugeKeys newState ;;
     (if String.eqb gaugeKey "" then ret tt
      else emit (stats_Record ctx (containerGaugeMeasures newState) 1)))%eff.

Definition containerState_UpdateState (ctx : Context)
    (newState : ContainerStateType) (cl : call) (clock : Time)
    (c : containerState) : containerState * Eff unit :=
  let '(c', l) := containerState_locked newState clock c in
  (c', containerState_report ctx newState cl l).

(** *** Acceptance

    A call is the accepting one when it gets past [if now.IsZero() { return }],
    that is when its local [now] was assigned inside the locked region. *)

Definition request_accepts (newState : RequestStateType) (clock : Time)
    (c : requestState) : bool :=
  negb (IsZero (rl_now (requestState_locked newState clock c).2)).

Definition container_accepts (newState : ContainerStateType) (clock : Time)
    (c : containerState) : bool :=
  negb (IsZero (cl_now (containerState_locked newState clock c).2)).

(** The legality rule of the container tracker, in the words of the design
    document (section 4.2). *)
Definition container_legal (s newState : ContainerStateType) : Prop :=
  s < newState
  \/ (s = ContainerStatePaused /\ newState = ContainerStateIdle)
  \/ (s = ContainerStateBusy
      /\ (newState = ContainerStateIdle \/ newState = ContainerStatePaused)).

(** States with an occupancy gauge and a duration metric: all but [None]
    and [Done]. *)
Definition tracked_state (s : ContainerStateType) : bool :=
  negb (s =? ContainerStateNone) && negb (s =? ContainerStateDone).

(** ** What an event list contains *)

Definition hook_calls (tr : list event) : list event :=
  omap (fun e => match e with
                 | stats_Record _ _ _ => None
                 | _ => Some e
                 end) tr.

Definition telemetry (tr : list event) : list event :=
  omap (fun e => match e with
                 | stats_Record _ _ _ => Some e
                 | _ => None
                 end) tr.

Definition hot_deltas (tr : list event) : list (Context * Z) :=
  omap (fun e => match e with
                 | stats_Record ctx hotFunctionMeasure v => Some (ctx, v)
                 | _ => None
                 end) tr.

Definition gauge_obs (tr : list event) : list (ContainerStateType * Z) :=
  omap (fun e => match e with
                 | stats_Record _ (containerGaugeMeasures s) v => Some (s, v)
                 | _ => None
                 end) tr.

Definition duration_obs (tr : list event) : list (ContainerStateType * Z) :=
  omap (fun e => match e with
                 | stats_Record _ (containerTimeMeasures s) v => Some (s, v)
                 | _ => None
                 end) tr.

(** The identity a context is tagged with. *)
Definition identity_of (ctx : Context) : option string * option string * option string :=
  (tag_value ctx appIdKey, tag_value ctx functionIdKey, tag_value ctx imageNameKey).

(** ** Sequences of calls on one tracker *)

Record requestCall := mkRequestCall {
  rc_newState : RequestStateType;
  rc_slots : option slotQueue;
  rc_clock : Time
}.

Record containerCall := mkContainerCall {
  cc_ctx : Context;
  cc_newState : ContainerStateType;
  cc_call : call;
  cc_clock : Time
}.

Definition request_call (x : requestCall) (c : requestState) : requestState * Eff unit :=
  requestState_UpdateState (rc_newState x) (rc_slots x) (rc_clock x) c.

Definition container_call (x : containerCall) (c : containerState) : containerState * Eff unit :=
  containerState_UpdateState (cc_ctx x) (cc_newState x) (cc_call x) (cc_clock x) c.

(** The state stored after each call of a sequence. *)
Fixpoint request_observed (calls : list requestCall) (c : requestState)
  : list RequestStateType :=
  match calls with
  | [] => []
  | x :: rest =>
      let c' := (request_call x c).1 in
      r_state c' :: request_observed rest c'
  end.

(** The calls one after the other; a panic ends the run. *)
Fixpoint container_run (calls : list containerCall) (c : containerState)
  : Eff containerState :=
  match calls with
  | [] => ret c
  | x :: rest =>
      let '(c', m) := container_call x c in
      (m ;; container_run rest c')%eff
  end.

(** The clock reading of the last accepting call of a history ([t] when
    there is none): the instant the current state was entered. *)
Fixpoint entered_at (calls : list containerCall) (c : containerState) (t : Time)
  : Time :=
  match calls with
  | [] => t
  | x :: rest =>
      entered_at rest (container_call x c).1
        (if container_accepts (cc_newState x) (cc_clock x) c then cc_clock x else t)
  end.

(** ** The events of an accepted container transition, spelled out *)

(** What [setHot] records for a target state. *)
Definition hot_part (ctx : Context) (cl : call) (newState : ContainerStateType)
  : list event :=
  let hctx := (tag_New ctx [ tag_Upsert appIdKey (AppID cl);
                             tag_Upsert functionIdKey (FnID cl);
                             tag_Upsert imageNameKey (Image cl) ]).1 in
  if newState =? ContainerStateStart then [stats_Record hctx hotFunctionMeasure 1]
  else if newState =? ContainerStateDone then [stats_Record hctx hotFunctionMeasure (-1)]
  else [].

(** What the block under [if slots != nil] does. *)
Definition slot_part (ctx : Context) (cl : call)
    (oldState newState : ContainerStateType) : list event :=
  match slots cl with
  | Some q =>
      hot_part ctx cl newState
      ++ [enterContainerState q newState; exitContainerState q oldState]
  | None => []
  end.

(** The statistics of the state that is left and of the one that is entered. *)
Definition stats_part (ctx : Context) (oldState newState : ContainerStateType)
    (elapsed : Z) : list event :=
  (if tracked_state oldState
   then [stats_Record ctx (containerGaugeMeasures oldState) (-1);
         stats_Record ctx (containerTimeMeasures oldState) elapsed]
   else [])
  ++ (if tracked_state newState
      then [stats_Record ctx (containerGaugeMeasures newState) 1]
      else []).

(** ** Sample inputs *)

Definition queue0 : slotQueue := SlotQueue "app/fn".
Definition call_hot : call := mkCall "app" "fn" "img" (Some queue0).
Definition call_cold : call := mkCall "app" "fn" "img" None.

(** An image name of 256 bytes, one too many for a tag value. *)
Definition long_image : string := string_of_list_ascii (repeat "x"%char 256).
Definition call_long : call := mkCall "app" "fn" long_image (Some queue0).

(** The context and the identity of the call can be made into tags. *)
Definition taggable (ctx : Context) (cl : call) : Prop :=
  forallb (fun kv => checkValue kv.2) ctx = true
  /\ checkValue (AppID cl) = true
  /\ checkValue (FnID cl) = true
  /\ checkValue (Image cl) = true.

(** The hot-signal sentence of the design document, read literally: every
    accepted transition to [Start] records one +1 tagged with the call's
    identity, every accepted transition to [Done] one -1, and every other one
    nothing. *)
Definition hot_signal_as_stated : Prop :=
  forall (ctx : Context) (newState : ContainerStateType) (cl : call)
         (clock : Time) (c : containerState),
    container_defined (c_state c) -> container_defined newState ->
    IsZero clock = false -> container_legal (c_state c) newState ->
    let tr := events (containerState_UpdateState ctx newState cl clock c).2 in
    (newState = ContainerStateStart ->
     exists hctx, hot_deltas tr = [(hctx, 1)]
                  /\ identity_of hctx = (Some (AppID cl), Some (FnID cl), Some (Image cl)))
    /\ (newState = ContainerStateDone ->
        exists hctx, hot_deltas tr = [(hctx, -1)])
    /\ (newState <> ContainerStateStart -> newState <> ContainerStateDone ->
        hot_deltas tr = []).

(** ** Concurrent callers of requestState.UpdateState

    Every caller runs the statements of [UpdateState] one at a time, and a
    scheduler picks who moves next.  [c.lock.Lock()] can only be taken while
    the mutex is free; the test and the assignments under it are the locked
    region of the sequential model above. *)

Module Race.

Inductive pc :=
| AtLock      (* before c.lock.Lock() *)
| AtTest      (* holding the lock, before the test of c.state *)
| AtUnlock    (* before c.lock.Unlock() *)
| AtCheck     (* before if now.IsZero() *)
| AtEnter     (* before slots.enterRequestState(newState) *)
| AtExit      (* before slots.exitRequestState(oldState) *)
| Returned.

Record thread := mkThread {
  t_pc : pc;
  t_newState : RequestStateType;
  t_slots : option slotQueue;
  t_clock : Time;              (* what time.Now() reads for this caller *)
  t_now : Time;
  t_oldState : RequestStateType
}.

Record world := mkWorld {
  w_locked : bool;
  w_c : requestState;
  w_log : list event;
  w_threads : list thread
}.

Definition at_pc (p : pc) (t : thread) : thread :=
  mkThread p (t_newState t) (t_slots t) (t_clock t) (t_now t) (t_oldState t).

(** One statement of one caller: the caller afterwards, the mutex, the
    tracker and the events it emitted; [None] when it cannot move. *)
Definition thread_step (t : thread) (locked : bool) (c : requestState)
  : option (thread * bool * requestState * list event) :=
  match t_pc t with
  | AtLock =>
      if locked then None else Some (at_pc AtTest t, true, c, [])
  | AtTest =>
      let '(c', l) := requestState_locked (t_newState t) (t_clock t) c in
      Some (mkThread AtUnlock (t_newState t) (t_slots t) (t_clock t)
              (rl_now l) (rl_oldState l), locked, c', [])
  | AtUnlock => Some (at_pc AtCheck t, false, c, [])
  | AtCheck =>
      if IsZero (t_now t) then Some (at_pc Returned t, locked, c, [])
      else match t_slots t with
           | Some _ => Some (at_pc AtEnter t, locked, c, [])
           | None => Some (at_pc Returned t, locked, c, [])
           end
  | AtEnter =>
      match t_slots t with
      | Some q => Some (at_pc AtExit t, locked, c,
                        [enterRequestState q (t_newState t)])
      | None => None
      end
  | AtExit =>
      match t_slots t with
      | Some q => Some (at_pc Returned t, locked, c,
                        [exitRequestState q (t_oldState t)])
      | None => None
      end
  | Returned => None
  end.

Definition step (i : nat) (w : world) : option world :=
  match w_threads w !! i with
  | None => None
  | Some t =>
      match thread_step t (w_locked w) (w_c w) with
      | None => None
      | Some (t', locked', c', evs) =>
          Some (mkWorld locked' c' (w_log w ++ evs) (<[i := t']> (w_threads w)))
      end
  end.

(** A schedule names the caller to move at each turn; a turn given to a
    caller that cannot move is lost. *)
Fixpoint run (sched : list nat) (w : world) : world :=
  match sched with
  | [] => w
  | i :: rest => run rest (default w (step i w))
  end.

Definition returned (t : thread) : bool :=
  match t_pc t with Returned => true | _ => false end.

Definition all_returned (w : world) : bool := forallb returned (w_threads w).

(** The caller saw itself as the accepting one. *)
Definition won (t : thread) : nat := if IsZero (t_now t) then 0%nat else 1%nat.

Definition winners (w : world) : nat := sum_list_with won (w_threads w).

(** One caller per clock reading, all asking for [newState] on a tracker
    that stands at [c]. *)
Definition start (newState : RequestStateType) (slots : option slotQueue)
    (clocks : list Time) (c : requestState) : world :=
  mkWorld false c []
    (map (fun clk => mkThread AtLock newState slots clk Time_zero 0) clocks).

(** *** What the proofs keep track of *)

(** The caller is inside the locked region. *)
Definition holds (t : thread) : nat :=
  match t_pc t with
  | AtTest | AtUnlock => 1%nat
  | _ => 0%nat
  end.

(** Statements the caller still has to run, at most. *)
Definition left_steps (t : thread) : nat :=
  match t_pc t with
  | AtLock => 6%nat
  | AtTest => 5%nat
  | AtUnlock => 4%nat
  | AtCheck => 3%nat
  | AtEnter => 2%nat
  | AtExit => 1%nat
  | Returned => 0%nat
  end.

Definition fuel (w : world) : nat := sum_list_with left_steps (w_threads w).

(** The hooks the caller has called so far. *)
Definition emitted (t : thread) : list event :=
  match t_slots t with
  | None => []
  | Some q =>
      if IsZero (t_now t) then []
      else match t_pc t with
           | AtExit => [enterRequestState q (t_newState t)]
           | Returned => [enterRequestState q (t_newState t);
                          exitRequestState q (t_oldState t)]
           | _ => []
           end
  end.

Definition before_test (t : thread) : Prop :=
  t_pc t = AtLock \/ t_pc t = AtTest.

Section Invariant.

(** All callers ask for [newState] with the same slot queue, on a tracker
    that stood at [s0] when they started. *)
Variables (newState s0 : RequestStateType) (slots : option slotQueue).

Definition thread_ok (t : thread) : Prop :=
  t_newState t = newState
  /\ t_slots t = slots
  /\ IsZero (t_clock t) = false
  /\ (before_test t -> t_now t = Time_zero)
  /\ (t_pc t = AtEnter \/ t_pc t = AtExit ->
      IsZero (t_now t) = false /\ is_Some slots)
  /\ (IsZero (t_now t) = false -> t_oldState t = s0).

Definition inv (w : world) : Prop :=
  sum_list_with holds (w_threads w) = (if w_locked w then 1%nat else 0%nat)
  /\ Forall thread_ok (w_threads w)
  /\ ((r_state (w_c w) = s0 /\ Forall before_test (w_threads w))
      \/ (r_state (w_c w) = newState /\ winners w = 1%nat))
  /\ (forall i t, w_threads w !! i = Some t -> won t = 1%nat ->
        w_log w = emitted t /\ w_c w = mkRequestState newState (t_now t))
  /\ (winners w = 0%nat -> w_log w = []).

End Invariant.

End Race.

(** * Further definitions: totals over histories, the general race *)

(** ** Totals of what a history recorded *)

(** The sum of the values observed for state [s]. *)
Fixpoint total_for (s : Z) (obs : list (Z * Z)) : Z :=
  match obs with
  | [] => 0
  | (s', v) :: rest => (if s' =? s then v else 0) + total_for s rest
  end.

(** The net value recorded on the occupancy gauge of state [s]. *)
Definition gauge_total (s : ContainerStateType) (tr : list event) : Z :=
  total_for s (gauge_obs tr).

Definition slotQueue_eqb (a b : slotQueue) : bool :=
  match a, b with SlotQueue x, SlotQueue y => String.eqb x y end.

(** Enter hooks minus exit hooks received by slot queue [q] for state [s]. *)
Fixpoint container_hook_balance (q : slotQueue) (s : ContainerStateType)
    (tr : list event) : Z :=
  match tr with
  | [] => 0
  | enterContainerState q' s' :: rest =>
      (if slotQueue_eqb q' q && (s' =? s) then 1 else 0)
      + container_hook_balance q s rest
  | exitContainerState q' s' :: rest =>
      (if slotQueue_eqb q' q && (s' =? s) then -1 else 0)
      + container_hook_balance q s rest
  | _ :: rest => container_hook_balance q s rest
  end.

Fixpoint request_hook_balance (q : slotQueue) (s : RequestStateType)
    (tr : list event) : Z :=
  match tr with
  | [] => 0
  | enterRequestState q' s' :: rest =>
      (if slotQueue_eqb q' q && (s' =? s) then 1 else 0)
      + request_hook_balance q s rest
  | exitRequestState q' s' :: rest =>
      (if slotQueue_eqb q' q && (s' =? s) then -1 else 0)
      + request_hook_balance q s rest
  | _ :: rest => request_hook_balance q s rest
  end.

(** 1 when the tracker stands at [s], else 0. *)
Definition container_at (s : ContainerStateType) (c : containerState) : Z :=
  if c_state c =? s then 1 else 0.

(** The calls of a sequence on a request tracker, one after the other: the
    tracker at the end and everything the calls emitted. *)
Fixpoint request_run (calls : list requestCall) (c : requestState)
  : requestState * list event :=
  match calls with
  | [] => (c, [])
  | x :: rest =>
      let '(c', m) := request_call x c in
      let '(c'', tr) := request_run rest c' in
      (c'', events m ++ tr)
  end.

(** The contexts the gauge and duration observations were recorded with. *)
Definition stats_contexts (tr : list event) : list Context :=
  omap (fun e => match e with
                 | stats_Record ctx (containerGaugeMeasures _) _ => Some ctx
                 | stats_Record ctx (containerTimeMeasures _) _ => Some ctx
                 | _ => None
                 end) tr.

(** The kinds of side effect of a container call, numbered in the order the
    code performs them. *)
Definition event_phase (e : event) : nat :=
  match e with
  | stats_Record _ hotFunctionMeasure _ => 0%nat
  | enterContainerState _ _ | enterRequestState _ _ => 1%nat
  | exitContainerState _ _ | exitRequestState _ _ => 2%nat
  | stats_Record _ (containerGaugeMeasures _) v => if v <? 0 then 3%nat else 5%nat
  | stats_Record _ (containerTimeMeasures _) _ => 4%nat
  end.

(** ** Any callers racing on one request tracker *)

(** The caller has run the test of [c.state] under the lock. *)
Definition past_test (t : Race.thread) : bool :=
  match Race.t_pc t with
  | Race.AtLock | Race.AtTest => false
  | _ => true
  end.

(** The largest of [s0] and the targets of the callers that are past the
    test. *)
Fixpoint settled (s0 : RequestStateType) (l : list Race.thread) : RequestStateType :=
  match l with
  | [] => s0
  | t :: rest =>
      if past_test t then Z.max (Race.t_newState t) (settled s0 rest)
      else settled s0 rest
  end.

(** One caller per call, none of them started, on a tracker at [c]. *)
Definition callers (calls : list requestCall) (c : requestState) : Race.world :=
  Race.mkWorld false c []
    ((fun x => Race.mkThread Race.AtLock (rc_newState x) (rc_slots x)
                 (rc_clock x) Time_zero 0) <$> calls).

(** A caller about to call a hook has a slot queue. *)
Definition hooks_ready (t : Race.thread) : Prop :=
  Race.t_pc t = Race.AtEnter \/ Race.t_pc t = Race.AtExit ->
  is_Some (Race.t_slots t).

Definition race_inv (s0 : RequestStateType) (targets : list RequestStateType)
    (w : Race.world) : Prop :=
  sum_list_with Race.holds (Race.w_threads w)
  = (if Race.w_locked w then 1%nat else 0%nat)
  /\ Forall hooks_ready (Race.w_threads w)
  /\ Race.t_newState <$> Race.w_threads w = targets
  /\ r_state (Race.w_c w) = settled s0 (Race.w_threads w).

(** * Properties *)

(** ** Shared lemmas *)

Lemma container_defined_cases (s : ContainerStateType) :
  container_defined s ->
  s = ContainerStateNone \/ s = ContainerStateWait \/ s = ContainerStateStart
  \/ s = ContainerStateIdle \/ s = ContainerStatePaused
  \/ s = ContainerStateBusy \/ s = ContainerStateDone.
Proof.
  unfold container_defined, ContainerStateMax, ContainerStateNone,
    ContainerStateWait, ContainerStateStart, ContainerStateIdle,
    ContainerStatePaused, ContainerStateBusy, ContainerStateDone.
  lia.
Qed.

(** Closes [container_defined s] and [request_defined s] at a literal. *)
Ltac solve_defined :=
  cbv; split; [ let H := fresh in intros H; discriminate H | reflexivity ].

Ltac each_container_state H :=
  apply container_defined_cases in H;
  destruct H as [H | [H | [H | [H | [H | [H | H]]]]]].

(** The test under the container's lock is the legality rule. *)
Lemma container_test_legal (s n : ContainerStateType) :
  (s <? n)
  || ((s =? ContainerStatePaused) && (n =? ContainerStateIdle))
  || ((s =? ContainerStateBusy) && isIdleState n) = true
  <-> container_legal s n.
Proof.
  unfold container_legal, isIdleState.
  rewrite !orb_true_iff, !andb_true_iff, orb_true_iff, Z.ltb_lt, !Z.eqb_eq.
  tauto.
Qed.

Lemma container_locked_legal (n : ContainerStateType) (clock : Time) (c : containerState) :
  container_legal (c_state c) n ->
  containerState_locked n clock c
  = (mkContainerState n clock, mkContainerLocals clock (c_state c) (c_start c)).
Proof.
  intros H. apply container_test_legal in H.
  unfold containerState_locked. now rewrite H.
Qed.

Lemma container_locked_illegal (n : ContainerStateType) (clock : Time) (c : containerState) :
  ~ container_legal (c_state c) n ->
  containerState_locked n clock c = (c, mkContainerLocals Time_zero 0 Time_zero).
Proof.
  intros H. unfold containerState_locked.
  destruct (_ || _) eqn:E; [|reflexivity].
  apply container_test_legal in E. contradiction.
Qed.

Lemma request_locked_forward (n : RequestStateType) (clock : Time) (c : requestState) :
  r_state c < n ->
  requestState_locked n clock c
  = (mkRequestState n clock, mkRequestLocals clock (r_state c)).
Proof.
  intros H. unfold requestState_locked.
  apply Z.ltb_lt in H. now rewrite H.
Qed.

Lemma request_locked_stale (n : RequestStateType) (clock : Time) (c : requestState) :
  n <= r_state c ->
  requestState_locked n clock c = (c, mkRequestLocals Time_zero 0).
Proof.
  intros H. unfold requestState_locked.
  apply Z.ltb_ge in H. now rewrite H.
Qed.

(** Every event of an accepted container transition between defined states,
    in program order; the call does not panic. *)
Lemma container_report_accepted (ctx : Context) (n : ContainerStateType)
    (cl : call) (clock before : Time) (s : ContainerStateType) :
  container_defined s -> container_defined n -> IsZero clock = false ->
  containerState_report ctx n cl (mkContainerLocals clock s before)
  = (slot_part ctx cl s n
     ++ stats_part ctx s n (Duration_div (Time_Sub clock before) Millisecond),
     Some tt).
Proof.
  intros Hs Hn Hclock.
  unfold containerState_report, slot_part. cbn [cl_now cl_oldState cl_before].
  rewrite Hclock.
  generalize (Duration_div (Time_Sub clock before) Millisecond) as d. intros d.
  destruct (slots cl) as [q|];
    each_container_state Hs; each_container_state Hn; subst s n;
    reflexivity.
Qed.

(** ** C8: the enumerations *)

(** C8. The request states are numbered None=0, Wait=1, Exec=2, Done=3 and
    the container states None=0, Wait=1, Start=2, Idle=3, Paused=4, Busy=5,
    Done=6, by their place in the [const] blocks; each [Max] sentinel is the
    number of real states (4 and 7), the real states are exactly the values
    below it, and each of the three tables sized by [ContainerStateMax] has
    an entry for every real container state. *)
Theorem enumerations_and_sentinels :
  map (const_value RequestState_consts)
    [ "RequestStateNone"; "RequestStateWait"; "RequestStateExec";
      "RequestStateDone"; "RequestStateMax" ] = [0; 1; 2; 3; 4]
  /\ map (const_value ContainerState_consts)
       [ "ContainerStateNone"; "ContainerStateWait"; "ContainerStateStart";
         "ContainerStateIdle"; "ContainerStatePaused"; "ContainerStateBusy";
         "ContainerStateDone"; "ContainerStateMax" ] = [0; 1; 2; 3; 4; 5; 6; 7]
  /\ RequestState_real = [0; 1; 2; 3]
  /\ ContainerState_real = [0; 1; 2; 3; 4; 5; 6]
  /\ RequestStateMax = 4 /\ ContainerStateMax = 7
  /\ RequestStateMax = Z.of_nat (length RequestState_real)
  /\ ContainerStateMax = Z.of_nat (length ContainerState_real)
  /\ (forall s, request_defined s <-> In s RequestState_real)
  /\ (forall s, container_defined s <-> In s ContainerState_real)
  /\ Z.of_nat (length containerStateKeys) = ContainerStateMax
  /\ Z.of_nat (length containerGaugeKeys) = ContainerStateMax
  /\ Z.of_nat (length containerTimeKeys) = ContainerStateMax
  /\ (forall s, In s ContainerState_real ->
        is_Some (array_get containerStateKeys s)
        /\ is_Some (array_get containerGaugeKeys s)
        /\ is_Some (array_get containerTimeKeys s)).
Proof.
  split_and!; try reflexivity.
  - intros s. unfold request_defined, RequestStateMax, RequestState_real.
    cbv [In RequestStateNone RequestStateWait RequestStateExec RequestStateDone].
    lia.
  - intros s. unfold ContainerState_real. split.
    + intros H. each_container_state H; subst s; cbn; tauto.
    + unfold container_defined, ContainerStateMax.
      cbv [In ContainerStateNone ContainerStateWait ContainerStateStart
             ContainerStateIdle ContainerStatePaused ContainerStateBusy
             ContainerStateDone].
      lia.
  - intros s H. cbn in H.
    repeat (destruct H as [<- | H]; [vm_compute; split_and!; eexists; reflexivity |]).
    contradiction.
Qed.

Lemma enumerations_and_sentinels_witness :
  In ContainerStateDone ContainerState_real
  /\ is_Some (array_get containerGaugeKeys ContainerStateDone).
Proof.
  assert (H : In ContainerStateDone ContainerState_real) by (cbn; tauto).
  split; [exact H|].
  destruct enumerations_and_sentinels
    as (_ & _ & _ & _ & _ & _ & _ & _ & _ & _ & _ & _ & _ & Hcover).
  exact (proj1 (proj2 (Hcover ContainerStateDone H))).
Defined.

(** ** C1: legality of container transitions *)

(** C1. For defined states [s] and [newState], a call of
    [containerState.UpdateState] on a tracker standing at [s] is the
    accepting one exactly when [s < newState], or [(s, newState)] is
    [(Paused, Idle)], or [s = Busy] and [newState] is [Idle] or [Paused];
    then the tracker stores [newState] and the clock reading; for every other
    pair, [s = newState] included, the tracker is left as it was. *)
Theorem container_transition_legality
    (ctx : Context) (s newState : ContainerStateType) (cl : call)
    (clock : Time) (c : containerState) :
  container_defined s -> container_defined newState ->
  c_state c = s -> IsZero clock = false ->
  let c' := (containerState_UpdateState ctx newState cl clock c).1 in
  (container_accepts newState clock c = true
   <-> (s < newState
        \/ (s = ContainerStatePaused /\ newState = ContainerStateIdle)
        \/ (s = ContainerStateBusy
            /\ (newState = ContainerStateIdle \/ newState = ContainerStatePaused))))
  /\ (container_legal s newState -> c' = mkContainerState newState clock)
  /\ (~ container_legal s newState -> c' = c)
  /\ (s = newState -> c' = c).
Proof.
  intros _ _ <- Hclock c'. subst c'.
  unfold containerState_UpdateState, container_accepts.
  fold (container_legal (c_state c) newState).
  destruct (decide (container_legal (c_state c) newState)) as [L | L].
  - rewrite (container_locked_legal _ _ _ L). cbn. rewrite Hclock.
    repeat split; try tauto.
    intros E. exfalso. unfold container_legal in L. rewrite <- E in L.
    unfold ContainerStatePaused, ContainerStateIdle, ContainerStateBusy in L. lia.
  - rewrite (container_locked_illegal _ _ _ L). cbn.
    repeat split; try tauto; try discriminate.
Qed.

Lemma container_transition_legality_witness :
  container_defined ContainerStateBusy /\ container_defined ContainerStateIdle
  /\ IsZero 1000 = false
  /\ (containerState_UpdateState [] ContainerStateIdle call_cold 1000
        (mkContainerState ContainerStateBusy 7)).1
     = mkContainerState ContainerStateIdle 1000.
Proof.
  assert (D1 : container_defined ContainerStateBusy) by solve_defined.
  assert (D2 : container_defined ContainerStateIdle) by solve_defined.
  split_and!; [exact D1 | exact D2 | reflexivity |].
  apply (container_transition_legality [] ContainerStateBusy ContainerStateIdle
           call_cold 1000 (mkContainerState ContainerStateBusy 7)
           D1 D2 eq_refl eq_refl).
  right; right. split; [reflexivity | left; reflexivity].
Defined.

(** ** C2: the request state only moves forward *)

Lemma request_call_le (x : requestCall) (c : requestState) :
  r_state c <= r_state (request_call x c).1.
Proof.
  unfold request_call, requestState_UpdateState, requestState_locked.
  destruct (r_state c <? rc_newState x) eqn:E; cbn; [|lia].
  apply Z.ltb_lt in E. lia.
Qed.

Lemma request_observed_ge (calls : list requestCall) :
  forall c : requestState,
    Forall (fun s => r_state c <= s) (request_observed calls c).
Proof.
  induction calls as [|x rest IH]; intros c; cbn [request_observed].
  - constructor.
  - pose proof (request_call_le x c) as Hle.
    constructor; [exact Hle|].
    eapply Forall_impl; [apply IH|].
    cbn. intros s Hs. lia.
Qed.

(** C2. On one request tracker, the state stored after each call of any
    sequence of calls is at least the state before it, so the states seen
    over the tracker's life never decrease in the order
    None < Wait < Exec < Done; a call is the accepting one exactly when the
    current state is below [newState], in which case [newState] and the
    clock reading are stored, and a call with [newState <= currentState]
    changes neither [state] nor [start]. *)
Theorem request_state_monotone
    (calls : list requestCall) (x : requestCall) (c : requestState) :
  StronglySorted Z.le (r_state c :: request_observed calls c)
  /\ RequestStateNone < RequestStateWait < RequestStateExec
  /\ RequestStateExec < RequestStateDone
  /\ r_state c <= r_state (request_call x c).1
  /\ (r_state c < rc_newState x ->
      (request_call x c).1 = mkRequestState (rc_newState x) (rc_clock x))
  /\ (rc_newState x <= r_state c -> (request_call x c).1 = c)
  /\ (IsZero (rc_clock x) = false ->
      (request_accepts (rc_newState x) (rc_clock x) c = true
       <-> r_state c < rc_newState x)).
Proof.
  split_and!.
  - revert c. induction calls as [|y rest IH]; intros c.
    + repeat constructor.
    + cbn [request_observed].
      constructor; [apply IH|].
      apply (request_observed_ge (y :: rest) c).
  - reflexivity.
  - reflexivity.
  - reflexivity.
  - apply request_call_le.
  - intros H. unfold request_call, requestState_UpdateState.
    now rewrite (request_locked_forward _ _ _ H).
  - intros H. unfold request_call, requestState_UpdateState.
    now rewrite (request_locked_stale _ _ _ H).
  - intros Hclock. unfold request_accepts, requestState_locked.
    destruct (r_state c <? rc_newState x) eqn:E; cbn.
    + rewrite Hclock. apply Z.ltb_lt in E. tauto.
    + apply Z.ltb_ge in E. split; [discriminate | lia].
Qed.

Lemma request_state_monotone_witness :
  request_observed
    [ mkRequestCall RequestStateExec None 10;
      mkRequestCall RequestStateWait None 20;
      mkRequestCall RequestStateDone None 30 ] NewRequestState
  = [RequestStateExec; RequestStateExec; RequestStateDone]
  /\ (request_call (mkRequestCall RequestStateWait None 20)
        (mkRequestState RequestStateExec 10)).1
     = mkRequestState RequestStateExec 10.
Proof.
  split; [reflexivity|].
  apply (request_state_monotone [] (mkRequestCall RequestStateWait None 20)
           (mkRequestState RequestStateExec 10)).
  cbn. discriminate.
Defined.

(** ** C4: a rejected transition does nothing *)

(** C4. A call whose legality check fails, on the request tracker
    ([newState] not above the current state) or on the container tracker
    (the pair is outside the legality rule), returns with the tracker as it
    was, [state] and [start] alike, and with no event at all: no notifier
    hook and no telemetry record. *)
Theorem rejected_transition_is_noop :
  (forall (newState : RequestStateType) (slots : option slotQueue)
          (clock : Time) (c : requestState),
      ~ r_state c < newState ->
      let r := requestState_UpdateState newState slots clock c in
      r.1 = c /\ r_state r.1 = r_state c /\ r_start r.1 = r_start c
      /\ hook_calls (events r.2) = [] /\ telemetry (events r.2) = []
      /\ r.2 = ([], Some tt))
  /\ (forall (ctx : Context) (newState : ContainerStateType) (cl : call)
             (clock : Time) (c : containerState),
         ~ container_legal (c_state c) newState ->
         let r := containerState_UpdateState ctx newState cl clock c in
         r.1 = c /\ c_state r.1 = c_state c /\ c_start r.1 = c_start c
         /\ hook_calls (events r.2) = [] /\ telemetry (events r.2) = []
         /\ r.2 = ([], Some tt)).
Proof.
  split.
  - intros n slots clock c H r. subst r.
    unfold requestState_UpdateState.
    rewrite request_locked_stale by lia. cbn. tauto.
  - intros ctx n cl clock c H r. subst r.
    unfold containerState_UpdateState.
    rewrite (container_locked_illegal _ _ _ H). cbn. tauto.
Qed.

Lemma rejected_transition_is_noop_witness :
  (requestState_UpdateState RequestStateWait (Some queue0) 50
     (mkRequestState RequestStateDone 40)).2 = ([], Some tt)
  /\ (containerState_UpdateState [] ContainerStateWait call_hot 50
        (mkContainerState ContainerStateIdle 40)).2 = ([], Some tt).
Proof.
  destruct rejected_transition_is_noop as [Hr Hc]. split.
  - apply (Hr RequestStateWait (Some queue0) 50 (mkRequestState RequestStateDone 40)).
    cbn. intros H. discriminate H.
  - apply (Hc [] ContainerStateWait call_hot 50 (mkContainerState ContainerStateIdle 40)).
    unfold container_legal. cbn. intros [H | [[H _] | [H _]]]; discriminate H.
Defined.

(** ** Accepted container transitions *)

Lemma container_update_accepted (ctx : Context) (n : ContainerStateType)
    (cl : call) (clock : Time) (c : containerState) :
  container_defined (c_state c) -> container_defined n ->
  IsZero clock = false -> container_legal (c_state c) n ->
  containerState_UpdateState ctx n cl clock c
  = (mkContainerState n clock,
     (slot_part ctx cl (c_state c) n
      ++ stats_part ctx (c_state c) n
           (Duration_div (Time_Sub clock (c_start c)) Millisecond),
      Some tt)).
Proof.
  intros Hs Hn Hclock L. unfold containerState_UpdateState.
  rewrite (container_locked_legal _ _ _ L).
  now rewrite container_report_accepted.
Qed.

Lemma TagKey_eqb_eq (a b : TagKey) : TagKey_eqb a b = true <-> a = b.
Proof.
  destruct a, b; cbn; try (split; [discriminate | congruence]);
    try (split; reflexivity).
  rewrite String.eqb_eq. split; congruence.
Qed.

Lemma tag_value_upsert_eq (k : TagKey) (v : string) (ctx : Context) :
  tag_value (upsert k v ctx) k = Some v.
Proof.
  assert (R : TagKey_eqb k k = true) by now apply TagKey_eqb_eq.
  induction ctx as [|[k' v'] rest IH]; cbn.
  - now rewrite R.
  - destruct (TagKey_eqb k' k) eqn:E; cbn.
    + now rewrite R.
    + now rewrite E.
Qed.

Lemma tag_value_upsert_ne (k k' : TagKey) (v : string) (ctx : Context) :
  k <> k' -> tag_value (upsert k v ctx) k' = tag_value ctx k'.
Proof.
  intros Hne.
  assert (R : TagKey_eqb k k' = false).
  { destruct (TagKey_eqb k k') eqn:E; [|reflexivity].
    apply TagKey_eqb_eq in E. contradiction. }
  induction ctx as [|[k1 v1] rest IH]; cbn.
  - now rewrite R.
  - destruct (TagKey_eqb k1 k) eqn:E; cbn.
    + apply TagKey_eqb_eq in E. subst k1. now rewrite R.
    + now rewrite IH.
Qed.

(** What [tag.New] returns to [setHot] when every value is valid. *)
Lemma tag_New_valid (ctx : Context) (appId fnId imageName : string) :
  forallb (fun kv => checkValue kv.2) ctx = true ->
  checkValue appId = true -> checkValue fnId = true ->
  checkValue imageName = true ->
  tag_New ctx [ tag_Upsert appIdKey appId;
                tag_Upsert functionIdKey fnId;
                tag_Upsert imageNameKey imageName ]
  = (upsert imageNameKey imageName
       (upsert functionIdKey fnId (upsert appIdKey appId ctx)), None).
Proof.
  intros Hctx Ha Hf Hi. unfold tag_New, tag_Upsert. cbn [mutate].
  now rewrite Hctx, Ha, Hf, Hi.
Qed.

(** When one of the three values is not valid, [tag.New] hands back the
    context it was given. *)
Lemma tag_New_invalid (ctx : Context) (appId fnId imageName : string) :
  checkValue appId && checkValue fnId && checkValue imageName = false ->
  (tag_New ctx [ tag_Upsert appIdKey appId;
                 tag_Upsert functionIdKey fnId;
                 tag_Upsert imageNameKey imageName ]).1 = ctx.
Proof.
  intros H. unfold tag_New, tag_Upsert. cbn [mutate].
  destruct (forallb _ ctx); [|reflexivity].
  destruct (checkValue appId); [|reflexivity].
  destruct (checkValue fnId); [|reflexivity].
  destruct (checkValue imageName); [discriminate H | reflexivity].
Qed.

(** The context [setHot] records with carries the identity of the call,
    when the context and the identity can be made into tags. *)
Lemma setHot_identity (ctx : Context) (cl : call) :
  taggable ctx cl ->
  identity_of (tag_New ctx [ tag_Upsert appIdKey (AppID cl);
                             tag_Upsert functionIdKey (FnID cl);
                             tag_Upsert imageNameKey (Image cl) ]).1
  = (Some (AppID cl), Some (FnID cl), Some (Image cl)).
Proof.
  intros (Hctx & Ha & Hf & Hi).
  rewrite tag_New_valid by assumption. cbn [fst].
  unfold identity_of.
  rewrite tag_value_upsert_eq.
  rewrite (tag_value_upsert_ne imageNameKey functionIdKey) by discriminate.
  rewrite tag_value_upsert_eq.
  rewrite (tag_value_upsert_ne imageNameKey appIdKey) by discriminate.
  rewrite (tag_value_upsert_ne functionIdKey appIdKey) by discriminate.
  now rewrite tag_value_upsert_eq.
Qed.

Lemma hot_deltas_app (tr1 tr2 : list event) :
  hot_deltas (tr1 ++ tr2) = hot_deltas tr1 ++ hot_deltas tr2.
Proof. apply omap_app. Qed.

Lemma gauge_obs_app (tr1 tr2 : list event) :
  gauge_obs (tr1 ++ tr2) = gauge_obs tr1 ++ gauge_obs tr2.
Proof. apply omap_app. Qed.

Lemma duration_obs_app (tr1 tr2 : list event) :
  duration_obs (tr1 ++ tr2) = duration_obs tr1 ++ duration_obs tr2.
Proof. apply omap_app. Qed.

Lemma hook_calls_app (tr1 tr2 : list event) :
  hook_calls (tr1 ++ tr2) = hook_calls tr1 ++ hook_calls tr2.
Proof. apply omap_app. Qed.

(** The hot deltas of the two parts of an accepted transition. *)
Lemma hot_deltas_stats_part (ctx : Context) (s n : ContainerStateType) (d : Z) :
  hot_deltas (stats_part ctx s n d) = [].
Proof.
  unfold stats_part. destruct (tracked_state s), (tracked_state n); reflexivity.
Qed.

Lemma hot_deltas_slot_part (ctx : Context) (cl : call) (s n : ContainerStateType) :
  hot_deltas (slot_part ctx cl s n)
  = match slots cl with
    | Some _ => hot_deltas (hot_part ctx cl n)
    | None => []
    end.
Proof.
  unfold slot_part. destruct (slots cl); [|reflexivity].
  rewrite hot_deltas_app. cbn. now rewrite app_nil_r.
Qed.

(** ** C3: the hot signal *)

(** C3, as the code has it.  For an accepted container transition between
    defined states whose call has a slot queue attached: to [Start], exactly
    one hot delta of +1 is recorded; to [Done], exactly one of -1; to any
    other state, none.  The delta that is recorded is tagged with the call's
    (AppID, FnID, Image) whenever these three strings, and the values the
    context already carries, are valid tag values.  When the call has no
    slot queue, no hot delta is recorded, whatever the target state. *)
Theorem hot_signal_polarity
    (ctx : Context) (newState : ContainerStateType) (cl : call)
    (clock : Time) (c : containerState) :
  container_defined (c_state c) -> container_defined newState ->
  IsZero clock = false -> container_legal (c_state c) newState ->
  let tr := events (containerState_UpdateState ctx newState cl clock c).2 in
  (forall q, slots cl = Some q ->
     (newState = ContainerStateStart ->
      exists hctx, hot_deltas tr = [(hctx, 1)]
                   /\ (taggable ctx cl ->
                       identity_of hctx
                       = (Some (AppID cl), Some (FnID cl), Some (Image cl))))
     /\ (newState = ContainerStateDone ->
         exists hctx, hot_deltas tr = [(hctx, -1)]
                      /\ (taggable ctx cl ->
                          identity_of hctx
                          = (Some (AppID cl), Some (FnID cl), Some (Image cl))))
     /\ (newState <> ContainerStateStart -> newState <> ContainerStateDone ->
         hot_deltas tr = []))
  /\ (slots cl = None -> hot_deltas tr = []).
Proof.
  intros Hs Hn Hclock L tr. subst tr.
  rewrite container_update_accepted by assumption.
  cbn [snd events fst].
  rewrite hot_deltas_app, hot_deltas_stats_part, hot_deltas_slot_part, app_nil_r.
  split.
  - intros q Hq. rewrite Hq. unfold hot_part. split_and!.
    + intros ->. eexists. split; [reflexivity | apply setHot_identity].
    + intros ->. eexists. split; [reflexivity | apply setHot_identity].
    + intros H1 H2.
      apply Z.eqb_neq in H1, H2. now rewrite H1, H2.
  - intros Hq. now rewrite Hq.
Qed.

Lemma hot_signal_polarity_witness :
  taggable [] call_hot
  /\ hot_deltas
       (events (containerState_UpdateState [] ContainerStateStart call_hot 1000
                  (mkContainerState ContainerStateWait 10)).2)
     = [([(appIdKey, "app"); (functionIdKey, "fn"); (imageNameKey, "img")], 1)]
  /\ (exists hctx,
        hot_deltas
          (events (containerState_UpdateState [] ContainerStateStart call_hot 1000
                     (mkContainerState ContainerStateWait 10)).2)
        = [(hctx, 1)]
        /\ identity_of hctx = (Some "app", Some "fn", Some "img"))
  /\ hot_deltas
       (events (containerState_UpdateState [] ContainerStateStart call_cold 1000
                  (mkContainerState ContainerStateWait 10)).2)
     = [].
Proof.
  assert (T : taggable [] call_hot) by (repeat split).
  assert (D1 : container_defined
                 (c_state (mkContainerState ContainerStateWait 10)))
    by solve_defined.
  assert (D2 : container_defined ContainerStateStart) by solve_defined.
  split_and!; [exact T | reflexivity | |].
  - destruct (hot_signal_polarity [] ContainerStateStart call_hot 1000
                (mkContainerState ContainerStateWait 10)
                D1 D2 eq_refl (or_introl eq_refl)) as [H _].
    destruct (H queue0 eq_refl) as [HStart _].
    destruct (HStart eq_refl) as (hctx & E & Hid).
    exists hctx. split; [exact E | exact (Hid T)].
  - apply (hot_signal_polarity [] ContainerStateStart call_cold 1000
             (mkContainerState ContainerStateWait 10)
             D1 D2 eq_refl (or_introl eq_refl)).
    reflexivity.
Defined.

(** The literal reading fails on a call without a slot queue: the transition
    None -> Start is accepted and records no hot delta. *)
Lemma hot_signal_counterexample :
  container_accepts ContainerStateStart 1000 NewContainerState = true
  /\ hot_deltas
       (events (containerState_UpdateState [] ContainerStateStart call_cold 1000
                  NewContainerState).2) = []
  /\ ~ hot_signal_as_stated.
Proof.
  split_and!; [reflexivity | reflexivity |].
  intros H.
  destruct (H [] ContainerStateStart call_cold 1000 NewContainerState)
    as [HStart _];
    [ solve_defined | solve_defined | reflexivity | left; reflexivity |].
  destruct (HStart eq_refl) as [hctx [E _]].
  discriminate E.
Qed.

(** ** C5: occupancy gauges *)

Lemma gauge_obs_slot_part (ctx : Context) (cl : call) (s n : ContainerStateType) :
  gauge_obs (slot_part ctx cl s n) = [].
Proof.
  unfold slot_part, hot_part. destruct (slots cl); [|reflexivity].
  destruct (n =? ContainerStateStart), (n =? ContainerStateDone); reflexivity.
Qed.

(** C5. For an accepted container transition between defined states, the
    gauge of the previous state is recorded with -1 and then the gauge of the
    new state with +1, except that [None] and [Done] have no gauge (their key
    in the table is empty) and are skipped; the call records no other gauge
    observation. *)
Theorem gauge_accounting
    (ctx : Context) (newState : ContainerStateType) (cl : call)
    (clock : Time) (c : containerState) :
  container_defined (c_state c) -> container_defined newState ->
  IsZero clock = false -> container_legal (c_state c) newState ->
  gauge_obs (events (containerState_UpdateState ctx newState cl clock c).2)
  = (if (c_state c =? ContainerStateNone) || (c_state c =? ContainerStateDone)
     then [] else [(c_state c, -1)])
    ++ (if (newState =? ContainerStateNone) || (newState =? ContainerStateDone)
        then [] else [(newState, 1)])
  /\ array_get containerGaugeKeys ContainerStateNone = Some ""
  /\ array_get containerGaugeKeys ContainerStateDone = Some "".
Proof.
  intros Hs Hn Hclock L.
  rewrite container_update_accepted by assumption.
  cbn [snd events fst].
  rewrite gauge_obs_app, gauge_obs_slot_part. cbn [app].
  split_and!; [|reflexivity|reflexivity].
  unfold stats_part, tracked_state. rewrite <- !negb_orb.
  destruct (_ || _), (_ || _); reflexivity.
Qed.

Lemma gauge_accounting_witness :
  gauge_obs
    (events (containerState_UpdateState [] ContainerStateBusy call_hot 2000
               (mkContainerState ContainerStateWait 10)).2)
  = [(ContainerStateWait, -1); (ContainerStateBusy, 1)].
Proof.
  apply (gauge_accounting [] ContainerStateBusy call_hot 2000
           (mkContainerState ContainerStateWait 10));
    [ solve_defined | solve_defined | reflexivity | left; reflexivity ].
Defined.

(** ** C7: the slot queue's hooks *)

Lemma hook_calls_stats_part (ctx : Context) (s n : ContainerStateType) (d : Z) :
  hook_calls (stats_part ctx s n d) = [].
Proof.
  unfold stats_part. destruct (tracked_state s), (tracked_state n); reflexivity.
Qed.

Lemma hook_calls_slot_part (ctx : Context) (cl : call) (s n : ContainerStateType) :
  hook_calls (slot_part ctx cl s n)
  = match slots cl with
    | Some q => [enterContainerState q n; exitContainerState q s]
    | None => []
    end.
Proof.
  unfold slot_part, hot_part. destruct (slots cl); [|reflexivity].
  destruct (n =? ContainerStateStart), (n =? ContainerStateDone); reflexivity.
Qed.

(** C7. For an accepted transition on either tracker, the new state and the
    clock reading are stored and the call returns; with a slot queue attached
    the hooks called are its enter hook with the new state and then its exit
    hook with the previous state, once each and nothing else; with no slot
    queue no hook is called. *)
Theorem notifier_hooks_in_order :
  (forall (newState : RequestStateType) (slots : option slotQueue)
          (clock : Time) (c : requestState),
      IsZero clock = false -> r_state c < newState ->
      let r := requestState_UpdateState newState slots clock c in
      r.1 = mkRequestState newState clock
      /\ returns r.2
      /\ hook_calls (events r.2)
         = match slots with
           | Some q => [enterRequestState q newState; exitRequestState q (r_state c)]
           | None => []
           end)
  /\ (forall (ctx : Context) (newState : ContainerStateType) (cl : call)
             (clock : Time) (c : containerState),
         container_defined (c_state c) -> container_defined newState ->
         IsZero clock = false -> container_legal (c_state c) newState ->
         let r := containerState_UpdateState ctx newState cl clock c in
         r.1 = mkContainerState newState clock
         /\ returns r.2
         /\ hook_calls (events r.2)
            = match slots cl with
              | Some q => [enterContainerState q newState;
                           exitContainerState q (c_state c)]
              | None => []
              end).
Proof.
  split.
  - intros n slots clock c Hclock H r. subst r.
    unfold requestState_UpdateState, returns.
    rewrite (request_locked_forward _ _ _ H).
    unfold requestState_notify. cbn [rl_now rl_oldState]. rewrite Hclock.
    destruct slots; cbn; eauto.
  - intros ctx n cl clock c Hs Hn Hclock L r. subst r.
    rewrite container_update_accepted by assumption.
    unfold returns. cbn [fst snd events].
    rewrite hook_calls_app, hook_calls_stats_part, hook_calls_slot_part, app_nil_r.
    eauto.
Qed.

Lemma notifier_hooks_in_order_witness :
  hook_calls
    (events (requestState_UpdateState RequestStateExec (Some queue0) 70
               (mkRequestState RequestStateWait 60)).2)
  = [enterRequestState queue0 RequestStateExec;
     exitRequestState queue0 RequestStateWait]
  /\ hook_calls
       (events (containerState_UpdateState [] ContainerStateIdle call_hot 70
                  (mkContainerState ContainerStateBusy 60)).2)
     = [enterContainerState queue0 ContainerStateIdle;
        exitContainerState queue0 ContainerStateBusy].
Proof.
  destruct notifier_hooks_in_order as [Hr Hc]. split.
  - apply (Hr RequestStateExec (Some queue0) 70 (mkRequestState RequestStateWait 60));
      reflexivity.
  - apply (Hc [] ContainerStateIdle call_hot 70
             (mkContainerState ContainerStateBusy 60));
      [ solve_defined | solve_defined | reflexivity
      | right; right; split; [reflexivity | left; reflexivity] ].
Defined.

(** ** Histories of a container tracker *)

(** A call with a defined target on a tracker in a defined state returns,
    leaves the tracker in a defined state, and stores either nothing or the
    caller's [newState] together with the clock reading. *)
Lemma container_call_defined (x : containerCall) (c : containerState) :
  container_defined (c_state c) -> container_defined (cc_newState x) ->
  exists tr,
    (container_call x c).2 = (tr, Some tt)
    /\ container_defined (c_state (container_call x c).1)
    /\ ((container_call x c).1 = c
        \/ (container_call x c).1 = mkContainerState (cc_newState x) (cc_clock x)).
Proof.
  intros Hs Hn. unfold container_call.
  destruct (decide (container_legal (c_state c) (cc_newState x))) as [L | L].
  - destruct (IsZero (cc_clock x)) eqn:Hclock.
    + unfold containerState_UpdateState.
      rewrite (container_locked_legal _ _ _ L).
      unfold containerState_report. cbn [cl_now fst snd]. rewrite Hclock.
      eexists. split_and!; [reflexivity | exact Hn | now right].
    + rewrite container_update_accepted by assumption.
      eexists. split_and!; [reflexivity | exact Hn | now right].
  - unfold containerState_UpdateState.
    rewrite (container_locked_illegal _ _ _ L). cbn.
    eexists. split_and!; [reflexivity | exact Hs | now left].
Qed.

Lemma container_run_defined (calls : list containerCall) :
  forall c : containerState,
    container_defined (c_state c) ->
    Forall (fun x => container_defined (cc_newState x)) calls ->
    exists tr c',
      container_run calls c = (tr, Some c')
      /\ container_defined (c_state c')
      /\ (c_state c' = c_state c \/ In (c_state c') (map cc_newState calls)).
Proof.
  induction calls as [|x rest IH]; intros c Hs Hall.
  - exists [], c. cbn. auto.
  - inversion Hall as [|? ? Hx Hrest]; subst.
    destruct (container_call_defined x c Hs Hx) as (tr & E & Hd & Hc).
    destruct (IH _ Hd Hrest) as (tr' & c' & E' & Hd' & Hin).
    exists (tr ++ tr'), c'. cbn [container_run].
    destruct (container_call x c) as [c1 m] eqn:Ec. cbn [fst snd] in *.
    subst m. cbn [bind]. rewrite E'.
    split_and!; [reflexivity | exact Hd' |].
    cbn [map In].
    destruct Hin as [Hin | Hin]; [|auto].
    destruct Hc as [-> | ->]; cbn in Hin; auto.
Qed.

(** The [start] field is the clock reading of the last accepting call. *)
Lemma container_run_start (calls : list containerCall) :
  forall c c' tr,
    Forall (fun x => IsZero (cc_clock x) = false) calls ->
    container_run calls c = (tr, Some c') ->
    c_start c' = entered_at calls c (c_start c).
Proof.
  induction calls as [|x rest IH]; intros c c' tr Hall Hrun.
  - cbn in Hrun. now inversion Hrun.
  - inversion Hall as [|? ? Hx Hrest]; subst.
    cbn [container_run entered_at] in *.
    destruct (container_call x c) as [c1 m] eqn:Ec. cbn [fst].
    destruct m as [tr1 [[]|]]; cbn [bind] in Hrun; [|discriminate].
    destruct (container_run rest c1) as [tr2 r] eqn:Er.
    inversion Hrun; subst.
    rewrite (IH _ _ _ Hrest Er). f_equal.
    unfold container_call, containerState_UpdateState in Ec.
    unfold container_accepts.
    destruct (decide (container_legal (c_state c) (cc_newState x))) as [L | L].
    + rewrite (container_locked_legal _ _ _ L) in *. cbn. rewrite Hx.
      now inversion Ec.
    + rewrite (container_locked_illegal _ _ _ L) in *. cbn.
      now inversion Ec.
Qed.

(** ** C6: duration of the state that is left *)

Lemma duration_obs_slot_part (ctx : Context) (cl : call) (s n : ContainerStateType) :
  duration_obs (slot_part ctx cl s n) = [].
Proof.
  unfold slot_part, hot_part. destruct (slots cl); [|reflexivity].
  destruct (n =? ContainerStateStart), (n =? ContainerStateDone); reflexivity.
Qed.

Lemma Time_Sub_exact (t u : Time) :
  minDuration <= t - u <= maxDuration -> Time_Sub t u = t - u.
Proof.
  intros [Hlo Hhi]. unfold Time_Sub.
  destruct (t - u <? minDuration) eqn:E1; [apply Z.ltb_lt in E1; lia|].
  destruct (maxDuration <? t - u) eqn:E2; [apply Z.ltb_lt in E2; lia|].
  reflexivity.
Qed.

(** C6. Let a container tracker be reached from a fresh one by any history
    of calls with defined targets, and let the next call be accepted at clock
    reading [now].  When the state it leaves is neither [None] nor [Done],
    the call records exactly one duration observation, for that state, whose
    value is [now] minus the clock reading of the call that entered that
    state (Go's [Sub], which is the plain difference whenever that fits a
    [Duration]), divided by a millisecond with truncation; when the state it
    leaves is [None] or [Done], it records no duration. *)
Theorem duration_accounting
    (history : list containerCall) (x : containerCall) :
  Forall (fun y => container_defined (cc_newState y)) (history ++ [x]) ->
  Forall (fun y => IsZero (cc_clock y) = false) (history ++ [x]) ->
  exists c,
    (container_run history NewContainerState).2 = Some c
    /\ let entered := entered_at history NewContainerState Time_zero in
       let now := cc_clock x in
       (container_legal (c_state c) (cc_newState x) ->
        duration_obs (events (container_call x c).2)
        = if (c_state c =? ContainerStateNone) || (c_state c =? ContainerStateDone)
          then []
          else [(c_state c, Z.quot (Time_Sub now entered) 1000000)])
       /\ (minDuration <= now - entered <= maxDuration ->
           Time_Sub now entered = now - entered).
Proof.
  intros Hdef Hclk.
  apply Forall_app in Hdef as [Hdef Hx]. apply Forall_app in Hclk as [Hclk Hcx].
  apply Forall_inv in Hx. apply Forall_inv in Hcx.
  destruct (container_run_defined history NewContainerState) as (tr & c & E & Hd & _);
    [solve_defined | exact Hdef |].
  exists c. rewrite E. split; [reflexivity|].
  pose proof (container_run_start history _ _ _ Hclk E) as Hstart.
  cbn [c_start NewContainerState] in Hstart.
  cbv zeta. rewrite <- Hstart. split; [|apply Time_Sub_exact].
  intros L. unfold container_call.
  rewrite container_update_accepted by assumption.
  cbn [snd events fst].
  rewrite duration_obs_app, duration_obs_slot_part. cbn [app].
  unfold stats_part, tracked_state. rewrite <- !negb_orb.
  destruct (_ || _), (_ || _); reflexivity.
Qed.

Lemma duration_accounting_witness :
  let history := [ mkContainerCall [] ContainerStateWait call_hot 1000000;
                   mkContainerCall [] ContainerStateStart call_hot 5000000;
                   mkContainerCall [] ContainerStateWait call_hot 6000000 ] in
  let x := mkContainerCall [] ContainerStateIdle call_hot 8500000 in
  exists c,
    (container_run history NewContainerState).2 = Some c
    /\ duration_obs (events (container_call x c).2) = [(ContainerStateStart, 3)].
Proof.
  intros history x.
  destruct (duration_accounting history x) as (c & E & H & _).
  - cbn [app history]. repeat (apply List.Forall_cons; [solve_defined|]). apply List.Forall_nil.
  - cbn [app history]. repeat (apply List.Forall_cons; [reflexivity|]). apply List.Forall_nil.
  - exists c. split; [exact E|].
    cbn in E. injection E as <-.
    apply H. left. reflexivity.
Defined.

(** ** C10: GetState never fails *)

(** C10. A fresh container tracker stands at [None] and [GetState] returns
    "none" on it; after any sequence of calls whose targets are defined
    states, no call has panicked, the stored state is [None] or one of the
    targets the callers supplied, hence defined, and [GetState] returns its
    label, one of "none", "wait", "start", "idle", "paused", "busy",
    "done". *)
Theorem GetState_total (calls : list containerCall) :
  Forall (fun x => container_defined (cc_newState x)) calls ->
  c_state NewContainerState = ContainerStateNone
  /\ containerState_GetState NewContainerState = Some "none"
  /\ exists c label,
       (container_run calls NewContainerState).2 = Some c
       /\ (c_state c = ContainerStateNone \/ In (c_state c) (map cc_newState calls))
       /\ container_defined (c_state c)
       /\ containerState_GetState c = Some label
       /\ In label ["none"; "wait"; "start"; "idle"; "paused"; "busy"; "done"].
Proof.
  intros Hdef. split_and!; [reflexivity | reflexivity |].
  destruct (container_run_defined calls NewContainerState) as (tr & c & E & Hd & Hin);
    [solve_defined | exact Hdef |].
  exists c. rewrite E. cbn [snd].
  assert (exists label, containerState_GetState c = Some label
            /\ In label ["none"; "wait"; "start"; "idle"; "paused"; "busy"; "done"])
    as (label & Hl & Hmem).
  { unfold containerState_GetState. pose proof Hd as Hd'.
    each_container_state Hd'; rewrite Hd'; eexists; (split; [reflexivity|]);
      cbn; tauto. }
  exists label. split_and!; auto.
Qed.

Lemma GetState_total_witness :
  exists c,
    (container_run
       [ mkContainerCall [] ContainerStateWait call_hot 10;
         mkContainerCall [] ContainerStateBusy call_hot 20;
         mkContainerCall [] ContainerStateIdle call_hot 30;
         mkContainerCall [] ContainerStateWait call_hot 40 ]
       NewContainerState).2 = Some c
    /\ containerState_GetState c = Some "idle".
Proof.
  destruct (GetState_total
              [ mkContainerCall [] ContainerStateWait call_hot 10;
                mkContainerCall [] ContainerStateBusy call_hot 20;
                mkContainerCall [] ContainerStateIdle call_hot 30;
                mkContainerCall [] ContainerStateWait call_hot 40 ])
    as (_ & _ & c & label & E & _ & _ & Hl & _).
  - repeat (apply List.Forall_cons; [solve_defined|]). apply List.Forall_nil.
  - exists c. split; [exact E|].
    cbn in E. injection E as <-. reflexivity.
Defined.

(** ** Sums over the callers of a race *)

Lemma sum_list_with_lookup {A} (f : A -> nat) (l : list A) (i : nat) (a : A) :
  l !! i = Some a -> (f a <= sum_list_with f l)%nat.
Proof.
  revert i. induction l as [|x l IH]; intros [|i] H; simpl in *; try discriminate.
  - injection H as ->. lia.
  - specialize (IH _ H). lia.
Qed.

Lemma sum_list_with_insert {A} (f : A -> nat) (l : list A) (i : nat) (a b : A) :
  l !! i = Some a ->
  (sum_list_with f (<[i := b]> l) + f a = sum_list_with f l + f b)%nat.
Proof.
  revert i. induction l as [|x l IH]; intros [|i] H; simpl in *; try discriminate.
  - injection H as ->. lia.
  - specialize (IH _ H). lia.
Qed.

Lemma sum_list_with_two {A} (f : A -> nat) (l : list A) (i j : nat) (a b : A) :
  l !! i = Some a -> l !! j = Some b -> i <> j ->
  (f a + f b <= sum_list_with f l)%nat.
Proof.
  revert i j. induction l as [|x l IH]; intros [|i] [|j] Hi Hj Hne;
    simpl in *; try discriminate; try congruence.
  - injection Hi as ->. pose proof (sum_list_with_lookup f l j b Hj). lia.
  - injection Hj as ->. pose proof (sum_list_with_lookup f l i a Hi). lia.
  - assert (i <> j) by congruence. specialize (IH _ _ Hi Hj H). lia.
Qed.

Lemma sum_list_with_pos {A} (f : A -> nat) (l : list A) :
  (0 < sum_list_with f l)%nat -> exists i a, l !! i = Some a /\ (0 < f a)%nat.
Proof.
  induction l as [|x l IH]; simpl; intros H; [lia|].
  destruct (f x) eqn:E.
  - destruct IH as (i & a & Hi & Ha); [lia|]. exists (S i), a. auto.
  - exists 0%nat, x. simpl. split; [reflexivity | lia].
Qed.

Lemma sum_list_with_zero {A} (f : A -> nat) (l : list A) :
  Forall (fun a => f a = 0%nat) l -> sum_list_with f l = 0%nat.
Proof.
  induction 1 as [|x l Hx _ IH]; simpl; [reflexivity | lia].
Qed.

(** ** Concurrent callers: the invariant of a race *)

Section RaceProofs.

Variables (newState s0 : RequestStateType) (slots : option slotQueue).
Hypothesis forward : s0 < newState.

Local Abbreviation inv := (Race.inv newState s0 slots).
Local Abbreviation thread_ok := (Race.thread_ok newState s0 slots).

Lemma before_test_not_won (t : Race.thread) :
  thread_ok t -> Race.before_test t -> Race.won t = 0%nat.
Proof.
  intros (_ & _ & _ & Hnow & _) Hb. unfold Race.won. now rewrite (Hnow Hb).
Qed.

Lemma before_test_no_winner (l : list Race.thread) :
  Forall thread_ok l -> Forall Race.before_test l ->
  sum_list_with Race.won l = 0%nat.
Proof.
  intros Hok Hb. apply sum_list_with_zero.
  rewrite Forall_forall in *. intros t Ht.
  apply before_test_not_won; auto.
Qed.

Lemma thread_step_facts (t t' : Race.thread) (lk lk' : bool)
    (c c' : requestState) (evs : list event) :
  thread_ok t ->
  (Race.holds t <= if lk then 1 else 0)%nat ->
  r_state c = s0 \/ r_state c = newState ->
  Race.thread_step t lk c = Some (t', lk', c', evs) ->
  thread_ok t'
  /\ (Race.holds t' + (if lk then 1 else 0)
      = Race.holds t + (if lk' then 1 else 0))%nat
  /\ (Race.left_steps t' < Race.left_steps t)%nat
  /\ ((c' = c /\ Race.won t' = Race.won t /\ Race.t_now t' = Race.t_now t
       /\ Race.emitted t' = Race.emitted t ++ evs
       /\ (Race.won t = 0%nat -> evs = [])
       /\ (r_state c = s0 -> Race.before_test t -> Race.before_test t'))
      \/ (r_state c = s0 /\ c' = mkRequestState newState (Race.t_now t')
          /\ Race.won t = 0%nat /\ Race.won t' = 1%nat
          /\ evs = [] /\ Race.emitted t' = [])).
Proof.
  intros (On & Osl & Oclk & Obefore & Oenter & Oold) Hh Hc Hs.
  destruct t as [p n sl clk now old].
  unfold Race.thread_step in Hs.
  cbn [Race.t_pc Race.t_newState Race.t_slots Race.t_clock Race.t_now
         Race.t_oldState] in *.
  subst n sl.
  destruct p.
  - (* Lock *)
    destruct lk; [discriminate|]. injection Hs as <- <- <- <-.
    split_and!; [ | reflexivity | cbn; lia | left ].
    + unfold thread_ok, Race.thread_ok, Race.before_test in *. cbn in *.
      split_and!; auto. intros [H | H]; discriminate H.
    + unfold Race.before_test. cbn. split_and!; auto.
      now rewrite app_nil_r.
  - (* the test under the lock *)
    destruct Hc as [Hc | Hc].
    + rewrite request_locked_forward in Hs by lia.
      injection Hs as <- <- <- <-. cbn [rl_now rl_oldState].
      split_and!; [ | reflexivity | cbn; lia | right ].
      * unfold thread_ok, Race.thread_ok, Race.before_test. cbn.
        split_and!; auto; try discriminate;
          try (intros [H | H]; discriminate H).
      * unfold Race.won, Race.emitted. cbn.
        rewrite Oclk, (Obefore (or_intror eq_refl)). cbn.
        split_and!; auto. now destruct slots.
    + rewrite request_locked_stale in Hs by lia.
      injection Hs as <- <- <- <-. cbn [rl_now rl_oldState].
      split_and!; [ | reflexivity | cbn; lia | left ].
      * unfold thread_ok, Race.thread_ok, Race.before_test. cbn.
        split_and!; auto; try discriminate;
          try (intros [H | H]; discriminate H).
      * unfold Race.won, Race.emitted, Race.before_test. cbn.
        rewrite (Obefore (or_intror eq_refl)). cbn.
        split_and!; auto.
        -- now destruct slots.
        -- intros E. lia.
  - (* Unlock *)
    injection Hs as <- <- <- <-.
    split_and!; [ | cbn in *; destruct lk; [reflexivity | lia] | cbn; lia | left ].
    + unfold thread_ok, Race.thread_ok, Race.before_test. cbn.
      split_and!; auto; try discriminate;
        try (intros [H | H]; discriminate H).
    + unfold Race.emitted, Race.before_test. cbn.
      split_and!; auto.
      * destruct slots, (IsZero now); reflexivity.
      * intros _ [H | H]; discriminate H.
  - (* the test of now *)
    assert (exists p, t' = Race.mkThread p newState slots clk now old
                      /\ ((p = Race.Returned
                           /\ (IsZero now = true \/ slots = None))
                          \/ (p = Race.AtEnter /\ IsZero now = false
                              /\ is_Some slots))
                      /\ lk' = lk /\ c' = c /\ evs = []) as (p & -> & Hp & -> & -> & ->).
    { destruct (IsZero now) eqn:Z; [|destruct slots as [q|] eqn:Q];
        injection Hs as <- <- <- <-; eexists; split_and!; eauto. }
    destruct Hp as [(-> & Hr) | (-> & Z & Q)];
      (split_and!; [ | reflexivity | cbn; lia | left ]).
    + unfold thread_ok, Race.thread_ok, Race.before_test. cbn.
      split_and!; auto; try discriminate;
        try (intros [H | H]; discriminate H).
    + unfold Race.emitted, Race.before_test. cbn.
      split_and!; auto.
      * destruct Hr as [-> | ->]; [destruct slots|]; reflexivity.
      * intros _ [H | H]; discriminate H.
    + unfold thread_ok, Race.thread_ok, Race.before_test. cbn.
      split_and!; auto; try discriminate;
        try (intros [H | H]; discriminate H).
    + unfold Race.emitted, Race.before_test. cbn.
      split_and!; auto.
      * destruct slots, (IsZero now); reflexivity.
      * intros _ [H | H]; discriminate H.
  - (* the enter hook *)
    destruct (Oenter (or_introl eq_refl)) as [Z [q Q]].
    rewrite Q in Hs. injection Hs as <- <- <- <-.
    split_and!; [ | reflexivity | cbn; lia | left ].
    + unfold thread_ok, Race.thread_ok, Race.before_test. cbn.
      split_and!; auto; try discriminate;
        try (intros [H | H]; discriminate H).
    + unfold Race.emitted, Race.before_test, Race.won. cbn. rewrite Q, Z.
      split_and!; auto; try discriminate.
      intros _ [H | H]; discriminate H.
  - (* the exit hook *)
    destruct (Oenter (or_intror eq_refl)) as [Z [q Q]].
    rewrite Q in Hs. injection Hs as <- <- <- <-.
    split_and!; [ | reflexivity | cbn; lia | left ].
    + unfold thread_ok, Race.thread_ok, Race.before_test. cbn.
      split_and!; auto; try discriminate;
        try (intros [H | H]; discriminate H).
    + unfold Race.emitted, Race.before_test, Race.won. cbn. rewrite Q, Z.
      split_and!; auto; try discriminate.
      intros _ [H | H]; discriminate H.
  - discriminate Hs.
Qed.

Lemma inv_winners_le (w : Race.world) : inv w -> (Race.winners w <= 1)%nat.
Proof.
  intros (_ & I2 & [[_ Hb] | [_ Hw]] & _); [|lia].
  unfold Race.winners. rewrite before_test_no_winner; auto.
Qed.

Lemma inv_state (w : Race.world) :
  inv w -> r_state (Race.w_c w) = s0 \/ r_state (Race.w_c w) = newState.
Proof. intros (_ & _ & [[H _] | [H _]] & _); auto. Qed.

Lemma won_le (t : Race.thread) : (Race.won t <= 1)%nat.
Proof. unfold Race.won. destruct (IsZero _); lia. Qed.

(** Every step keeps the invariant and uses up fuel. *)
Lemma step_inv (i : nat) (w w' : Race.world) :
  Race.step i w = Some w' -> inv w ->
  inv w' /\ (Race.fuel w' < Race.fuel w)%nat.
Proof.
  unfold Race.step.
  destruct (Race.w_threads w !! i) as [t|] eqn:Hi; [|discriminate].
  destruct (Race.thread_step t (Race.w_locked w) (Race.w_c w))
    as [[[[t' lk'] c'] evs]|] eqn:Hs; [|discriminate].
  intros Hw' Hinv. injection Hw' as <-.
  pose proof (inv_winners_le w Hinv) as Wle.
  pose proof (inv_state w Hinv) as Hst.
  destruct Hinv as (I1 & I2 & I3 & I4 & I5).
  pose proof (Forall_lookup_1 _ _ _ _ I2 Hi) as Hok.
  pose proof (sum_list_with_insert Race.holds _ _ _ t' Hi) as Sh.
  pose proof (sum_list_with_insert Race.won _ _ _ t' Hi) as Sw.
  pose proof (sum_list_with_insert Race.left_steps _ _ _ t' Hi) as Sf.
  pose proof (sum_list_with_lookup Race.holds _ _ _ Hi) as Lh.
  pose proof (sum_list_with_lookup Race.won _ _ _ Hi) as Lw.
  rewrite I1 in Lh.
  destruct (thread_step_facts _ _ _ _ _ _ _ Hok Lh Hst Hs)
    as (Hok' & Fh & Ff & Fc).
  unfold Race.fuel, Race.winners in *.
  destruct w as [lk c log ths].
  cbn [Race.w_locked Race.w_c Race.w_log Race.w_threads] in *.
  split; [|lia].
  unfold inv, Race.inv, Race.winners.
  cbn [Race.w_locked Race.w_c Race.w_log Race.w_threads].
  split_and!.
  - lia.
  - now apply Forall_insert.
  - destruct Fc as [(-> & Ew & _ & _ & _ & Hb) | (Hs0 & -> & W0 & W1 & _ & _)].
    + destruct I3 as [[Hs0 Hall] | [Hn Hw]].
      * left. split; [exact Hs0|]. apply Forall_insert; [exact Hall|].
        apply Hb; [exact Hs0|]. exact (Forall_lookup_1 _ _ _ _ Hall Hi).
      * right. split; [exact Hn | lia].
    + right. split; [reflexivity|].
      destruct I3 as [[_ Hall] | [Hn _]]; [|lia].
      rewrite (before_test_no_winner _ I2 Hall) in Sw. lia.
  - intros j tj Hj Wj.
    apply list_lookup_insert_Some in Hj.
    destruct Fc as [(-> & Ew & En & Ee & Hevs & _) | (Hs0 & -> & W0 & W1 & -> & Ee)].
    + destruct Hj as [(<- & <- & _) | (Hne & Hj)].
      * destruct (I4 i t Hi) as [-> ->]; [lia|]. now rewrite Ee, En.
      * destruct (I4 j tj Hj Wj) as [-> ->].
        pose proof (sum_list_with_two Race.won _ _ _ _ _ Hi Hj Hne) as Two.
        rewrite Hevs by lia. now rewrite app_nil_r.
    + assert (W : sum_list_with Race.won ths = 0%nat).
      { destruct I3 as [[_ Hall] | [Hn _]]; [|lia].
        now apply before_test_no_winner. }
      destruct Hj as [(<- & <- & _) | (Hne & Hj)].
      * rewrite (I5 W), Ee. auto.
      * pose proof (sum_list_with_lookup Race.won _ _ _ Hj). lia.
  - intros W'.
    destruct Fc as [(-> & Ew & _ & _ & Hevs & _) | (_ & _ & _ & W1 & _ & _)]; [|lia].
    rewrite I5 by lia. rewrite Hevs by lia. reflexivity.
Qed.

Lemma run_inv (sched : list nat) :
  forall w, inv w -> inv (Race.run sched w).
Proof.
  induction sched as [|i rest IH]; intros w Hw; cbn [Race.run]; [exact Hw|].
  apply IH. destruct (Race.step i w) as [w'|] eqn:E; cbn; [|exact Hw].
  exact (proj1 (step_inv _ _ _ E Hw)).
Qed.

Lemma run_app (s1 s2 : list nat) :
  forall w, Race.run (s1 ++ s2) w = Race.run s2 (Race.run s1 w).
Proof.
  induction s1 as [|i rest IH]; intros w; cbn [Race.run app]; auto.
Qed.

Lemma step_length (i : nat) (w w' : Race.world) :
  Race.step i w = Some w' ->
  length (Race.w_threads w') = length (Race.w_threads w).
Proof.
  unfold Race.step.
  destruct (Race.w_threads w !! i); [|discriminate].
  destruct (Race.thread_step _ _ _) as [[[[t' lk'] c'] evs]|]; [|discriminate].
  intros H. injection H as <-. cbn. apply length_insert.
Qed.

Lemma run_length (sched : list nat) :
  forall w, length (Race.w_threads (Race.run sched w)) = length (Race.w_threads w).
Proof.
  induction sched as [|i rest IH]; intros w; cbn [Race.run]; [reflexivity|].
  rewrite IH. destruct (Race.step i w) as [w'|] eqn:E; cbn; [|reflexivity].
  exact (step_length _ _ _ E).
Qed.

Lemma start_inv (clocks : list Time) (t0 : Time) :
  Forall (fun clk => IsZero clk = false) clocks ->
  inv (Race.start newState slots clocks (mkRequestState s0 t0)).
Proof.
  intros Hclk. unfold inv, Race.inv, Race.start, Race.winners.
  cbn [Race.w_locked Race.w_c Race.w_log Race.w_threads r_state].
  assert (Hb : Forall Race.before_test
                 (map (fun clk => Race.mkThread Race.AtLock newState slots clk Time_zero 0)
                    clocks)).
  { apply Forall_map. apply Forall_forall. intros clk _. now left. }
  assert (Hok : Forall (Race.thread_ok newState s0 slots)
                  (map (fun clk => Race.mkThread Race.AtLock newState slots clk Time_zero 0)
                     clocks)).
  { apply Forall_map. eapply Forall_impl; [exact Hclk|].
    intros clk Hz. unfold Race.thread_ok. cbn.
    split_and!; auto; try discriminate.
    intros [H | H]; discriminate H. }
  pose proof (before_test_no_winner _ Hok Hb) as W.
  split_and!; auto.
  - apply sum_list_with_zero. apply Forall_map. apply Forall_forall. reflexivity.
  - intros i t Hi Ht. pose proof (sum_list_with_lookup Race.won _ _ _ Hi). lia.
Qed.

(** A caller that has not returned can move, unless it is waiting for a
    mutex that is held. *)
Lemma thread_can_step (t : Race.thread) (lk : bool) (c : requestState) :
  thread_ok t -> Race.returned t = false ->
  (Race.t_pc t = Race.AtLock -> lk = false) ->
  is_Some (Race.thread_step t lk c).
Proof.
  intros (_ & Osl & _ & _ & Oenter & _) Hr Hl.
  unfold Race.thread_step, Race.returned in *.
  destruct (Race.t_pc t) eqn:P; try discriminate.
  - rewrite Hl by reflexivity. eauto.
  - destruct (requestState_locked _ _ _). eauto.
  - eauto.
  - destruct (IsZero _); [eauto|]. destruct (Race.t_slots t); eauto.
  - destruct Oenter as [_ [q Q]]; [now left|]. rewrite Osl, Q. eauto.
  - destruct Oenter as [_ [q Q]]; [now right|]. rewrite Osl, Q. eauto.
Qed.

Lemma forallb_false_lookup {A} (f : A -> bool) (l : list A) :
  forallb f l = false -> exists i a, l !! i = Some a /\ f a = false.
Proof.
  induction l as [|x l IH]; cbn; [discriminate|].
  destruct (f x) eqn:E; cbn.
  - intros H. destruct (IH H) as (i & a & Hi & Ha). exists (S i), a. auto.
  - intros _. exists 0%nat, x. auto.
Qed.

(** While some caller has not returned, some caller can move. *)
Lemma inv_can_step (w : Race.world) :
  inv w -> Race.all_returned w = false ->
  exists i w', Race.step i w = Some w'.
Proof.
  intros (I1 & I2 & _) Hr.
  assert (exists i t, Race.w_threads w !! i = Some t
                      /\ Race.returned t = false
                      /\ (Race.t_pc t = Race.AtLock -> Race.w_locked w = false))
    as (i & t & Hi & Ht & Hl).
  { destruct (Race.w_locked w) eqn:L.
    - destruct (sum_list_with_pos Race.holds (Race.w_threads w))
        as (i & t & Hi & Hh); [lia|].
      exists i, t. unfold Race.holds, Race.returned in *.
      destruct (Race.t_pc t); try lia; split_and!; auto; discriminate.
    - destruct (forallb_false_lookup _ _ Hr) as (i & t & Hi & Ht).
      exists i, t. auto. }
  pose proof (Forall_lookup_1 _ _ _ _ I2 Hi) as Hok.
  destruct (thread_can_step t (Race.w_locked w) (Race.w_c w) Hok Ht Hl)
    as [[[[t' lk'] c'] evs] Hs].
  exists i. unfold Race.step. rewrite Hi, Hs. eauto.
Qed.

(** Every execution can be run to the end: all callers return. *)
Lemma inv_completes (k : nat) :
  forall w, (Race.fuel w <= k)%nat -> inv w ->
            exists sched, Race.all_returned (Race.run sched w) = true.
Proof.
  induction k as [|k IH]; intros w Hk Hw;
    (destruct (Race.all_returned w) eqn:R; [exists []; exact R|]);
    destruct (inv_can_step w Hw R) as (i & w' & Hs);
    destruct (step_inv _ _ _ Hs Hw) as [Hw' Hf].
  - lia.
  - destruct (IH w') as [sched Hsched]; [lia | exact Hw' |].
    exists (i :: sched). cbn [Race.run]. now rewrite Hs.
Qed.

Lemma returned_emitted (t : Race.thread) :
  thread_ok t -> Race.returned t = true -> Race.won t = 1%nat ->
  Race.emitted t
  = match slots with
    | Some q => [enterRequestState q newState; exitRequestState q s0]
    | None => []
    end.
Proof.
  intros (On & Osl & _ & _ & _ & Oold) Hr Hw.
  unfold Race.emitted, Race.returned, Race.won in *.
  rewrite Osl, On.
  destruct slots; [|reflexivity].
  destruct (IsZero (Race.t_now t)); [discriminate|].
  rewrite Oold by reflexivity.
  destruct (Race.t_pc t); try discriminate. reflexivity.
Qed.

(** Whatever the schedule: at most one caller ever sees itself as the
    accepting one; once all have returned exactly one has, the tracker
    holds [newState] with that caller's stamp, and the log holds that
    caller's two hooks and nothing else; and the schedule can always be
    extended until all callers have returned. *)
Lemma race_outcome (clocks : list Time) (t0 : Time) (sched : list nat) :
  clocks <> [] -> Forall (fun clk => IsZero clk = false) clocks ->
  let w0 := Race.start newState slots clocks (mkRequestState s0 t0) in
  let w := Race.run sched w0 in
  (Race.winners w <= 1)%nat
  /\ (Race.all_returned w = true ->
      Race.winners w = 1%nat
      /\ Race.w_log w
         = match slots with
           | Some q => [enterRequestState q newState; exitRequestState q s0]
           | None => []
           end
      /\ exists i t, Race.w_threads w !! i = Some t /\ Race.won t = 1%nat
                     /\ Race.w_c w = mkRequestState newState (Race.t_now t))
  /\ exists rest, Race.all_returned (Race.run (sched ++ rest) w0) = true.
Proof.
  intros Hne Hclk w0 w.
  assert (Hw : inv w) by (apply run_inv, start_inv; exact Hclk).
  split_and!.
  - now apply inv_winners_le.
  - intros Hr.
    assert (W : Race.winners w = 1%nat).
    { destruct Hw as (_ & I2 & [[_ Hb] | [_ W]] & _); [|exact W].
      exfalso.
      assert (Hlen : length (Race.w_threads w) = length clocks).
      { subst w w0. rewrite run_length. cbn. apply length_map. }
      destruct (Race.w_threads w) as [|t ths] eqn:E.
      - destruct clocks; [congruence | discriminate Hlen].
      - unfold Race.all_returned in Hr. rewrite E in Hr. cbn in Hr.
        apply andb_true_iff in Hr as [Hr _].
        apply Forall_inv in Hb. unfold Race.returned in Hr.
        destruct Hb as [Hb | Hb]; rewrite Hb in Hr; discriminate Hr. }
    split; [exact W|].
    destruct (sum_list_with_pos Race.won (Race.w_threads w))
      as (i & t & Hi & Ht); [unfold Race.winners in W; lia|].
    pose proof (won_le t) as Hle.
    assert (Wt : Race.won t = 1%nat) by lia.
    destruct Hw as (_ & I2 & _ & I4 & _).
    destruct (I4 i t Hi Wt) as [Hlog Hc].
    split; [|eauto].
    rewrite Hlog. apply returned_emitted; auto.
    + exact (Forall_lookup_1 _ _ _ _ I2 Hi).
    + unfold Race.all_returned in Hr. rewrite forallb_forall in Hr.
      apply Hr. apply list_elem_of_In. eapply list_elem_of_lookup_2. exact Hi.
  - destruct (inv_completes (Race.fuel w) w) as [rest Hrest]; [lia | exact Hw |].
    exists rest. subst w. now rewrite run_app.
Qed.

End RaceProofs.

(** A caller that runs alone does what the sequential [UpdateState] does. *)
Lemma solo_caller_agrees (newState : RequestStateType) (slots : option slotQueue)
    (clock : Time) (c : requestState) :
  let w := Race.run (replicate 6 0%nat) (Race.start newState slots [clock] c) in
  Race.all_returned w = true
  /\ Race.w_c w = (requestState_UpdateState newState slots clock c).1
  /\ Race.w_log w = events (requestState_UpdateState newState slots clock c).2.
Proof.
  unfold requestState_UpdateState, requestState_notify,
    Race.start, Race.all_returned.
  cbn [replicate Race.run map].
  unfold Race.step at 6. cbn. unfold Race.step at 5. cbn.
  destruct (requestState_locked newState clock c) as [c' [now old]].
  unfold Race.step at 4. cbn. unfold Race.step at 3. cbn.
  destruct (IsZero now); [cbn; auto|].
  destruct slots as [q|]; cbn; auto.
Qed.

(** ** C9: concurrent callers racing to Done *)



(** * Further properties of the trackers *)

(** ** Single calls *)

(** X1. [Done] is terminal on both trackers: once a tracker stands at
    [Done], a call with any defined target leaves it as it is and emits
    nothing, and so does any sequence of such calls on the container
    tracker. *)
Theorem done_is_terminal :
  (forall (newState : RequestStateType) (slots : option slotQueue)
          (clock : Time) (c : requestState),
      r_state c = RequestStateDone -> request_defined newState ->
      requestState_UpdateState newState slots clock c = (c, ([], Some tt)))
  /\ (forall (ctx : Context) (newState : ContainerStateType) (cl : call)
             (clock : Time) (c : containerState),
         c_state c = ContainerStateDone -> container_defined newState ->
         containerState_UpdateState ctx newState cl clock c = (c, ([], Some tt)))
  /\ (forall (calls : list containerCall) (c : containerState),
         c_state c = ContainerStateDone ->
         Forall (fun x => container_defined (cc_newState x)) calls ->
         container_run calls c = ([], Some c)).
Proof.
  assert (Hc : forall ctx n cl clock c,
             c_state c = ContainerStateDone -> container_defined n ->
             containerState_UpdateState ctx n cl clock c = (c, ([], Some tt))).
  { intros ctx n cl clock c Hs Hn.
    unfold containerState_UpdateState.
    rewrite container_locked_illegal; [reflexivity|].
    unfold container_legal, container_defined, ContainerStateMax,
      ContainerStateDone, ContainerStatePaused, ContainerStateBusy in *.
    lia. }
  split_and!.
  - intros n slots clock c Hs Hn. unfold requestState_UpdateState.
    rewrite request_locked_stale; [reflexivity|].
    unfold request_defined, RequestStateMax, RequestStateDone in *. lia.
  - exact Hc.
  - intros calls c Hs. induction 1 as [|x rest Hx _ IH]; [reflexivity|].
    cbn [container_run]. unfold container_call.
    rewrite (Hc _ _ _ _ _ Hs Hx). cbn [bind]. now rewrite IH.
Qed.

Lemma done_is_terminal_witness :
  container_run
    [ mkContainerCall [] ContainerStateBusy call_hot 10;
      mkContainerCall [] ContainerStateIdle call_hot 20 ]
    (mkContainerState ContainerStateDone 5)
  = ([], Some (mkContainerState ContainerStateDone 5)).
Proof.
  destruct done_is_terminal as (_ & _ & H).
  apply H; [reflexivity|].
  repeat (apply List.Forall_cons; [solve_defined|]). apply List.Forall_nil.
Defined.

Lemma container_call_floor (x : containerCall) (c : containerState) :
  Z.min (c_state c) ContainerStateIdle <= c_state (container_call x c).1.
Proof.
  unfold container_call, containerState_UpdateState.
  destruct (decide (container_legal (c_state c) (cc_newState x))) as [L | L].
  - rewrite (container_locked_legal _ _ _ L). cbn.
    unfold container_legal, ContainerStateIdle, ContainerStatePaused,
      ContainerStateBusy in *. lia.
  - rewrite (container_locked_illegal _ _ _ L). cbn. lia.
Qed.

(** X2. The provisioning states are never entered again: whatever calls are
    made, with whatever targets, the state never falls below the smaller of
    the state the tracker started from and [Idle]; a container that has
    reached [Idle] or beyond never shows [None], [Wait] or [Start] again. *)
Theorem provisioning_states_not_reentered
    (calls : list containerCall) (c c' : containerState) (tr : list event) :
  container_run calls c = (tr, Some c') ->
  Z.min (c_state c) ContainerStateIdle <= c_state c'
  /\ (ContainerStateIdle <= c_state c -> ContainerStateIdle <= c_state c').
Proof.
  intros Hrun.
  assert (H : Z.min (c_state c) ContainerStateIdle <= c_state c').
  { revert c tr Hrun. induction calls as [|x rest IH]; intros c tr Hrun.
    - cbn in Hrun. injection Hrun as _ <-. lia.
    - cbn [container_run] in Hrun.
      pose proof (container_call_floor x c) as Hfloor.
      destruct (container_call x c) as [c1 [tr1 [[]|]]]; cbn [bind fst] in *;
        [|discriminate].
      destruct (container_run rest c1) as [tr2 r] eqn:Er.
      injection Hrun as _ ->.
      specialize (IH _ _ Er). lia. }
  split; [exact H | lia].
Qed.

Lemma provisioning_states_not_reentered_witness :
  ContainerStateIdle
  <= c_state (mkContainerState ContainerStateIdle 30).
Proof.
  apply (provisioning_states_not_reentered
           [ mkContainerCall [] ContainerStateBusy call_hot 10;
             mkContainerCall [] ContainerStateStart call_hot 20;
             mkContainerCall [] ContainerStateIdle call_hot 30 ]
           (mkContainerState ContainerStatePaused 5)
           (mkContainerState ContainerStateIdle 30)
           (events (container_run
              [ mkContainerCall [] ContainerStateBusy call_hot 10;
                mkContainerCall [] ContainerStateStart call_hot 20;
                mkContainerCall [] ContainerStateIdle call_hot 30 ]
              (mkContainerState ContainerStatePaused 5)))).
  - reflexivity.
  - cbn. discriminate.
Defined.

(** X3. The running states are mutually reachable: between any two different
    states among [Idle], [Paused] and [Busy] a transition is accepted, in
    particular Paused -> Busy, which is a forward move. *)
Theorem running_states_cycle
    (ctx : Context) (s newState : ContainerStateType) (cl : call)
    (clock t0 : Time) :
  ContainerStateIdle <= s <= ContainerStateBusy ->
  ContainerStateIdle <= newState <= ContainerStateBusy ->
  s <> newState -> IsZero clock = false ->
  container_accepts newState clock (mkContainerState s t0) = true
  /\ (containerState_UpdateState ctx newState cl clock (mkContainerState s t0)).1
     = mkContainerState newState clock.
Proof.
  intros Hs Hn Hne Hclock.
  assert (L : container_legal (c_state (mkContainerState s t0)) newState).
  { unfold container_legal, ContainerStateIdle, ContainerStatePaused,
      ContainerStateBusy in *. cbn. lia. }
  unfold container_accepts, containerState_UpdateState.
  rewrite (container_locked_legal _ _ _ L). cbn. now rewrite Hclock.
Qed.

Lemma running_states_cycle_witness :
  (containerState_UpdateState [] ContainerStateBusy call_cold 90
     (mkContainerState ContainerStatePaused 80)).1
  = mkContainerState ContainerStateBusy 90.
Proof.
  apply (running_states_cycle [] ContainerStatePaused ContainerStateBusy
           call_cold 90 80);
    [ cbv; split; intros H; discriminate H
    | cbv; split; intros H; discriminate H
    | discriminate | reflexivity ].
Defined.

(** X4. A repeated update is harmless: the same target asked for a second
    time, at whatever clock reading, leaves the tracker as the first call
    left it and emits nothing, on both trackers and for any integer
    target. *)
Theorem repeated_update_is_noop :
  (forall (newState : RequestStateType) (slots1 slots2 : option slotQueue)
          (clock1 clock2 : Time) (c : requestState),
      let c1 := (requestState_UpdateState newState slots1 clock1 c).1 in
      requestState_UpdateState newState slots2 clock2 c1 = (c1, ([], Some tt)))
  /\ (forall (ctx1 ctx2 : Context) (newState : ContainerStateType)
             (cl1 cl2 : call) (clock1 clock2 : Time) (c : containerState),
         let c1 := (containerState_UpdateState ctx1 newState cl1 clock1 c).1 in
         containerState_UpdateState ctx2 newState cl2 clock2 c1
         = (c1, ([], Some tt))).
Proof.
  split.
  - intros n slots1 slots2 clock1 clock2 c c1. subst c1.
    assert (H : n <= r_state (requestState_UpdateState n slots1 clock1 c).1).
    { unfold requestState_UpdateState, requestState_locked.
      destruct (r_state c <? n) eqn:E; cbn; [lia|].
      apply Z.ltb_ge in E. exact E. }
    unfold requestState_UpdateState at 1.
    now rewrite (request_locked_stale _ _ _ H).
  - intros ctx1 ctx2 n cl1 cl2 clock1 clock2 c c1. subst c1.
    assert (H : ~ container_legal
                  (c_state (containerState_UpdateState ctx1 n cl1 clock1 c).1) n).
    { unfold containerState_UpdateState.
      destruct (decide (container_legal (c_state c) n)) as [L | L].
      - rewrite (container_locked_legal _ _ _ L). cbn.
        unfold container_legal, ContainerStateIdle, ContainerStatePaused,
          ContainerStateBusy. lia.
      - rewrite (container_locked_illegal _ _ _ L). exact L. }
    unfold containerState_UpdateState at 1.
    now rewrite (container_locked_illegal _ _ _ H).
Qed.

(** X5. [GetState] reads back what [UpdateState] stored: after an accepted
    transition to a defined state it returns that state's entry of
    [containerStateKeys], and two trackers in defined states have the same
    label only if they stand at the same state. *)
Theorem GetState_reads_back :
  (forall (ctx : Context) (newState : ContainerStateType) (cl : call)
          (clock : Time) (c : containerState),
      container_defined newState -> container_legal (c_state c) newState ->
      exists label,
        array_get containerStateKeys newState = Some label
        /\ containerState_GetState
             (containerState_UpdateState ctx newState cl clock c).1 = Some label)
  /\ (forall c1 c2 : containerState,
         container_defined (c_state c1) -> container_defined (c_state c2) ->
         containerState_GetState c1 = containerState_GetState c2 ->
         c_state c1 = c_state c2).
Proof.
  split.
  - intros ctx n cl clock c Hn L.
    unfold containerState_UpdateState.
    rewrite (container_locked_legal _ _ _ L). cbn [fst].
    unfold containerState_GetState. cbn [c_state].
    each_container_state Hn; subst n; eexists; split; reflexivity.
  - intros [s1 t1] [s2 t2] H1 H2. unfold containerState_GetState. cbn [c_state] in *.
    each_container_state H1; each_container_state H2; subst s1 s2;
      cbn; intros E; try reflexivity; discriminate E.
Qed.

Lemma GetState_reads_back_witness :
  exists label,
    array_get containerStateKeys ContainerStatePaused = Some label
    /\ containerState_GetState
         (containerState_UpdateState [] ContainerStatePaused call_hot 50
            (mkContainerState ContainerStateBusy 40)).1 = Some label.
Proof.
  destruct GetState_reads_back as [H _].
  apply H; [solve_defined|].
  right; right. split; [reflexivity | right; reflexivity].
Defined.

(** ** Targets outside the enumeration *)

Lemma array_get_out_of_range {A} (tbl : list A) (i : Z) :
  Z.of_nat (length tbl) <= i -> array_get tbl i = None.
Proof.
  intros H. unfold array_get.
  destruct (i <? 0) eqn:E; [reflexivity|].
  apply lookup_ge_None. lia.
Qed.

(** X6. Targets outside the enumeration.  On a tracker in a defined state, a
    target of [ContainerStateMax] or more is accepted as a forward move: it
    is stored, the slot queue's hooks are called with it, and then the call
    panics on the gauge table, after which [GetState] panics too; a negative
    target is rejected like any backward move. *)
Theorem out_of_range_target
    (ctx : Context) (newState : ContainerStateType) (cl : call)
    (clock : Time) (c : containerState) :
  container_defined (c_state c) -> IsZero clock = false ->
  let r := containerState_UpdateState ctx newState cl clock c in
  (ContainerStateMax <= newState ->
   r.1 = mkContainerState newState clock
   /\ r.2.2 = None
   /\ hook_calls (events r.2)
      = match slots cl with
        | Some q => [enterContainerState q newState;
                     exitContainerState q (c_state c)]
        | None => []
        end
   /\ containerState_GetState r.1 = None)
  /\ (newState < 0 -> r = (c, ([], Some tt))).
Proof.
  intros Hs Hclock r. subst r. split.
  - intros Hn.
    assert (L : container_legal (c_state c) newState).
    { left. unfold container_defined in Hs. lia. }
    assert (Hg : array_get containerGaugeKeys newState = None).
    { apply array_get_out_of_range. exact Hn. }
    assert (H1 : (newState =? ContainerStateStart) = false).
    { apply Z.eqb_neq. unfold ContainerStateMax, ContainerStateStart in *. lia. }
    assert (H2 : (newState =? ContainerStateDone) = false).
    { apply Z.eqb_neq. unfold ContainerStateMax, ContainerStateDone in *. lia. }
    unfold containerState_UpdateState.
    rewrite (container_locked_legal _ _ _ L). cbn [fst snd].
    split_and!.
    + reflexivity.
    + unfold containerState_report, setHot, index.
      cbn [cl_now cl_oldState cl_before]. rewrite Hclock, Hg, H1, H2.
      destruct (slots cl); each_container_state Hs; rewrite Hs; reflexivity.
    + unfold containerState_report, setHot, index.
      cbn [cl_now cl_oldState cl_before]. rewrite Hclock, Hg, H1, H2.
      destruct (slots cl); each_container_state Hs; rewrite Hs; reflexivity.
    + unfold containerState_GetState. cbn [c_state].
      apply array_get_out_of_range. exact Hn.
  - intros Hn. unfold containerState_UpdateState.
    rewrite container_locked_illegal; [reflexivity|].
    unfold container_legal, container_defined, ContainerStateIdle,
      ContainerStatePaused in *. lia.
Qed.

Lemma out_of_range_target_witness :
  (containerState_UpdateState [] 9 call_hot 70
     (mkContainerState ContainerStateIdle 60)).2.2 = None
  /\ containerState_UpdateState [] (-1) call_hot 70
       (mkContainerState ContainerStateIdle 60)
     = (mkContainerState ContainerStateIdle 60, ([], Some tt)).
Proof.
  destruct (out_of_range_target [] 9 call_hot 70
              (mkContainerState ContainerStateIdle 60)) as [[_ [H _]] _];
    [ solve_defined | reflexivity | cbv; intros E; discriminate E |].
  destruct (out_of_range_target [] (-1) call_hot 70
              (mkContainerState ContainerStateIdle 60)) as [_ H'];
    [ solve_defined | reflexivity |].
  split; [exact H | apply H'; reflexivity].
Defined.

(** ** The events of one accepted call *)

(** X7. The identity tags stay inside [setHot]: every gauge and duration
    observation of an accepted call is recorded with the caller's context as
    it was passed in, whether or not a slot queue is attached.  The hot
    delta is recorded with what [tag.New] returned: a context that carries
    the call's identity when the context and the three strings are valid tag
    values, and the caller's context, with no tag added, as soon as one of
    the three strings is not a valid tag value ([setHot] drops the
    error). *)
Theorem stats_keep_callers_context
    (ctx : Context) (newState : ContainerStateType) (cl : call)
    (clock : Time) (c : containerState) :
  container_defined (c_state c) -> container_defined newState ->
  IsZero clock = false -> container_legal (c_state c) newState ->
  let tr := events (containerState_UpdateState ctx newState cl clock c).2 in
  Forall (fun ctx' => ctx' = ctx) (stats_contexts tr)
  /\ (taggable ctx cl ->
      Forall (fun h => identity_of h.1
                       = (Some (AppID cl), Some (FnID cl), Some (Image cl)))
        (hot_deltas tr))
  /\ (checkValue (AppID cl) && checkValue (FnID cl) && checkValue (Image cl)
      = false ->
      Forall (fun h => h.1 = ctx) (hot_deltas tr)).
Proof.
  intros Hs Hn Hclock L tr. subst tr.
  rewrite container_update_accepted by assumption.
  cbn [snd events fst].
  generalize (Duration_div (Time_Sub clock (c_start c)) Millisecond) as d.
  intros d. split_and!.
  - unfold slot_part, stats_part, hot_part.
    destruct (slots cl), (tracked_state (c_state c)), (tracked_state newState),
      (newState =? ContainerStateStart), (newState =? ContainerStateDone);
      cbn; repeat constructor.
  - intros T. pose proof (setHot_identity ctx cl T) as Hid.
    rewrite hot_deltas_app, hot_deltas_stats_part, hot_deltas_slot_part, app_nil_r.
    unfold hot_part.
    destruct (slots cl), (newState =? ContainerStateStart),
      (newState =? ContainerStateDone); cbn; repeat constructor; exact Hid.
  - intros Hbad.
    pose proof (tag_New_invalid ctx _ _ _ Hbad) as Hsame.
    rewrite hot_deltas_app, hot_deltas_stats_part, hot_deltas_slot_part, app_nil_r.
    unfold hot_part.
    destruct (slots cl), (newState =? ContainerStateStart),
      (newState =? ContainerStateDone); cbn; repeat constructor; exact Hsame.
Qed.

Lemma stats_keep_callers_context_witness :
  hot_deltas
    (events (containerState_UpdateState [(otherKey "zone", "eu")]
               ContainerStateStart call_long 2000
               (mkContainerState ContainerStateWait 10)).2)
  = [([(otherKey "zone", "eu")], 1)]
  /\ Forall (fun ctx' => ctx' = [(otherKey "zone", "eu")])
       (stats_contexts
          (events (containerState_UpdateState [(otherKey "zone", "eu")]
                     ContainerStateStart call_hot 2000
                     (mkContainerState ContainerStateWait 10)).2))
  /\ Forall (fun h => h.1 = [(otherKey "zone", "eu")])
       (hot_deltas
          (events (containerState_UpdateState [(otherKey "zone", "eu")]
                     ContainerStateStart call_long 2000
                     (mkContainerState ContainerStateWait 10)).2)).
Proof.
  split_and!; [vm_compute; reflexivity | |].
  - apply (stats_keep_callers_context [(otherKey "zone", "eu")]
             ContainerStateStart call_hot 2000
             (mkContainerState ContainerStateWait 10));
      [ solve_defined | solve_defined | reflexivity | left; reflexivity ].
  - apply (stats_keep_callers_context [(otherKey "zone", "eu")]
             ContainerStateStart call_long 2000
             (mkContainerState ContainerStateWait 10));
      [ solve_defined | solve_defined | reflexivity | left; reflexivity
      | vm_compute; reflexivity ].
Defined.



(** ** Histories: what the records of a whole run add up to *)

Section Telescope.

(** A quantity [mu] of the events that every good call changes by the
    difference of a potential [phi] of the tracker. *)
Variable good : containerCall -> Prop.
Variable mu : list event -> Z.
Variable phi : containerState -> Z.
Hypothesis good_defined : forall x, good x -> container_defined (cc_newState x).
Hypothesis mu_app : forall a b, mu (a ++ b) = mu a + mu b.
Hypothesis mu_step :
  forall x c, good x -> container_defined (c_state c) ->
              mu (events (container_call x c).2) = phi (container_call x c).1 - phi c.

Lemma container_run_telescope (calls : list containerCall) :
  forall c : containerState,
    container_defined (c_state c) -> Forall good calls ->
    exists tr c',
      container_run calls c = (tr, Some c')
      /\ container_defined (c_state c')
      /\ mu tr = phi c' - phi c.
Proof.
  assert (mu_nil : mu [] = 0).
  { pose proof (mu_app [] []) as H. cbn in H. lia. }
  induction calls as [|x rest IH]; intros c Hs Hall.
  - exists [], c. cbn. split_and!; auto. lia.
  - inversion Hall as [|? ? Hx Hrest]; subst.
    pose proof (mu_step x c Hx Hs) as Hstep.
    destruct (container_call_defined x c Hs (good_defined x Hx))
      as (tr1 & E & Hd & _).
    destruct (IH _ Hd Hrest) as (tr2 & c' & E' & Hd' & Hmu).
    exists (tr1 ++ tr2), c'. cbn [container_run].
    destruct (container_call x c) as [c1 m]. cbn [fst snd] in *. subst m.
    cbn [bind events fst] in *. rewrite E'.
    split_and!; [reflexivity | exact Hd' |].
    rewrite mu_app. lia.
Qed.

End Telescope.

Lemma total_for_app (s : Z) (a b : list (Z * Z)) :
  total_for s (a ++ b) = total_for s a + total_for s b.
Proof.
  induction a as [|[s' v] a IH]; cbn [total_for app]; lia.
Qed.

Lemma gauge_total_app (s : ContainerStateType) (a b : list event) :
  gauge_total s (a ++ b) = gauge_total s a + gauge_total s b.
Proof.
  unfold gauge_total. now rewrite gauge_obs_app, total_for_app.
Qed.

(** The occupancy a tracker contributes to the gauge of [s]. *)
Lemma gauge_total_step (s : ContainerStateType) (x : containerCall)
    (c : containerState) :
  container_defined (cc_newState x) /\ IsZero (cc_clock x) = false ->
  container_defined (c_state c) ->
  gauge_total s (events (container_call x c).2)
  = (if tracked_state (c_state (container_call x c).1)
     then container_at s (container_call x c).1 else 0)
    - (if tracked_state (c_state c) then container_at s c else 0).
Proof.
  intros [Hn Hclock] Hs. unfold container_call.
  destruct (decide (container_legal (c_state c) (cc_newState x))) as [L | L].
  - rewrite container_update_accepted by assumption.
    cbn [fst snd events c_state].
    rewrite gauge_total_app. unfold gauge_total at 1.
    rewrite gauge_obs_slot_part. cbn [total_for].
    unfold gauge_total, stats_part, container_at. cbn [c_state].
    destruct (tracked_state (c_state c)), (tracked_state (cc_newState x));
      cbn; destruct (c_state c =? s), (cc_newState x =? s); lia.
  - unfold containerState_UpdateState.
    rewrite (container_locked_illegal _ _ _ L). cbn. lia.
Qed.

(** X9. The gauges count occupancy.  Over any history of calls with defined
    targets on a fresh tracker, what has been recorded on the gauge of a
    state adds up to 1 if the tracker now stands at that state and the state
    has a gauge, and to 0 otherwise: every +1 has been taken back by a -1
    when the state was left. *)
Theorem gauges_count_occupancy
    (s : ContainerStateType) (calls : list containerCall) :
  Forall (fun x => container_defined (cc_newState x)
                   /\ IsZero (cc_clock x) = false) calls ->
  exists tr c,
    container_run calls NewContainerState = (tr, Some c)
    /\ gauge_total s tr
       = if tracked_state (c_state c) && (c_state c =? s) then 1 else 0.
Proof.
  intros Hall.
  destruct (container_run_telescope
              (fun x => container_defined (cc_newState x)
                        /\ IsZero (cc_clock x) = false)
              (gauge_total s)
              (fun c => if tracked_state (c_state c) then container_at s c else 0)
              (fun x H => proj1 H) (gauge_total_app s) (gauge_total_step s)
              calls NewContainerState)
    as (tr & c & E & _ & Hmu); [solve_defined | exact Hall |].
  exists tr, c. split; [exact E|].
  rewrite Hmu. unfold container_at. cbn.
  destruct (tracked_state (c_state c)), (c_state c =? s); reflexivity.
Qed.

Lemma gauges_count_occupancy_witness :
  exists tr c,
    container_run
      [ mkContainerCall [] ContainerStateWait call_hot 10;
        mkContainerCall [] ContainerStateBusy call_hot 20;
        mkContainerCall [] ContainerStateIdle call_hot 30;
        mkContainerCall [] ContainerStateBusy call_cold 40 ]
      NewContainerState = (tr, Some c)
    /\ gauge_total ContainerStateIdle tr = 0
    /\ c_state c = ContainerStateBusy.
Proof.
  destruct (gauges_count_occupancy ContainerStateIdle
              [ mkContainerCall [] ContainerStateWait call_hot 10;
                mkContainerCall [] ContainerStateBusy call_hot 20;
                mkContainerCall [] ContainerStateIdle call_hot 30;
                mkContainerCall [] ContainerStateBusy call_cold 40 ])
    as (tr & c & E & H).
  - repeat (apply List.Forall_cons; [split; [solve_defined | reflexivity]|]).
    apply List.Forall_nil.
  - exists tr, c. cbn in E. injection E as <- <-.
    split_and!; [reflexivity | exact H | reflexivity].
Defined.

Lemma slotQueue_eqb_refl (q : slotQueue) : slotQueue_eqb q q = true.
Proof. destruct q. cbn. apply String.eqb_refl. Qed.

Lemma container_hook_balance_app (q : slotQueue) (s : ContainerStateType)
    (a b : list event) :
  container_hook_balance q s (a ++ b)
  = container_hook_balance q s a + container_hook_balance q s b.
Proof.
  induction a as [|e a IH]; [reflexivity|].
  destruct e; cbn [container_hook_balance app]; lia.
Qed.

Lemma request_hook_balance_app (q : slotQueue) (s : RequestStateType)
    (a b : list event) :
  request_hook_balance q s (a ++ b)
  = request_hook_balance q s a + request_hook_balance q s b.
Proof.
  induction a as [|e a IH]; [reflexivity|].
  destruct e; cbn [request_hook_balance app]; lia.
Qed.

Lemma container_hook_balance_step (q : slotQueue) (s : ContainerStateType)
    (x : containerCall) (c : containerState) :
  container_defined (cc_newState x) /\ IsZero (cc_clock x) = false
  /\ slots (cc_call x) = Some q ->
  container_defined (c_state c) ->
  container_hook_balance q s (events (container_call x c).2)
  = container_at s (container_call x c).1 - container_at s c.
Proof.
  intros (Hn & Hclock & Hq) Hs. unfold container_call.
  destruct (decide (container_legal (c_state c) (cc_newState x))) as [L | L].
  - rewrite container_update_accepted by assumption.
    cbn [fst snd events].
    rewrite container_hook_balance_app.
    unfold slot_part, stats_part, hot_part, container_at. rewrite Hq.
    cbn [c_state].
    destruct (tracked_state (c_state c)), (tracked_state (cc_newState x)),
      (cc_newState x =? ContainerStateStart),
      (cc_newState x =? ContainerStateDone);
      cbn; rewrite !slotQueue_eqb_refl; cbn;
      destruct (c_state c =? s), (cc_newState x =? s); lia.
  - unfold containerState_UpdateState.
    rewrite (container_locked_illegal _ _ _ L). cbn. lia.
Qed.

(** X10. The slot queue can count containers by state.  Over any history of
    calls with defined targets that all carry the same slot queue, the enter
    hooks minus the exit hooks that queue received for a state come to 1 if
    the tracker now stands at that state and 0 otherwise, less the one exit
    hook [None] receives when a fresh tracker first moves. *)
Theorem hooks_count_occupancy
    (q : slotQueue) (s : ContainerStateType) (calls : list containerCall) :
  Forall (fun x => container_defined (cc_newState x)
                   /\ IsZero (cc_clock x) = false
                   /\ slots (cc_call x) = Some q) calls ->
  exists tr c,
    container_run calls NewContainerState = (tr, Some c)
    /\ container_hook_balance q s tr
       = (if c_state c =? s then 1 else 0)
         - (if ContainerStateNone =? s then 1 else 0).
Proof.
  intros Hall.
  destruct (container_run_telescope
              (fun x => container_defined (cc_newState x)
                        /\ IsZero (cc_clock x) = false
                        /\ slots (cc_call x) = Some q)
              (container_hook_balance q s) (container_at s)
              (fun x H => proj1 H) (container_hook_balance_app q s)
              (container_hook_balance_step q s)
              calls NewContainerState)
    as (tr & c & E & _ & Hmu); [solve_defined | exact Hall |].
  exists tr, c. split; [exact E|]. exact Hmu.
Qed.

Lemma hooks_count_occupancy_witness :
  exists tr c,
    container_run
      [ mkContainerCall [] ContainerStateStart call_hot 10;
        mkContainerCall [] ContainerStateBusy call_hot 20;
        mkContainerCall [] ContainerStateIdle call_hot 30 ]
      NewContainerState = (tr, Some c)
    /\ container_hook_balance queue0 ContainerStateIdle tr = 1
    /\ container_hook_balance queue0 ContainerStateBusy tr = 0.
Proof.
  assert (Hall : Forall (fun x => container_defined (cc_newState x)
                                  /\ IsZero (cc_clock x) = false
                                  /\ slots (cc_call x) = Some queue0)
                   [ mkContainerCall [] ContainerStateStart call_hot 10;
                     mkContainerCall [] ContainerStateBusy call_hot 20;
                     mkContainerCall [] ContainerStateIdle call_hot 30 ]).
  { repeat (apply List.Forall_cons;
            [split_and!; [solve_defined | reflexivity | reflexivity]|]).
    apply List.Forall_nil. }
  destruct (hooks_count_occupancy queue0 ContainerStateIdle _ Hall)
    as (tr & c & E & H).
  exists tr, c. cbn in E. injection E as <- <-.
  split_and!; [reflexivity | exact H | reflexivity].
Defined.

(** X11. The same for requests: over any sequence of calls on a request
    tracker that all carry the same slot queue, the enter hooks minus the
    exit hooks the queue received for a state come to 1 if the tracker ended
    at that state, less 1 if it started there; nothing else is left over. *)
Theorem request_hooks_count_occupancy
    (q : slotQueue) (s : RequestStateType) (calls : list requestCall)
    (c : requestState) :
  Forall (fun x => IsZero (rc_clock x) = false /\ rc_slots x = Some q) calls ->
  request_hook_balance q s (request_run calls c).2
  = (if r_state (request_run calls c).1 =? s then 1 else 0)
    - (if r_state c =? s then 1 else 0).
Proof.
  revert c.
  induction calls as [|x rest IH]; intros c Hall; cbn [request_run].
  - cbn. lia.
  - inversion Hall as [|? ? [Hclock Hq] Hrest]; subst.
    specialize (IH (request_call x c).1 Hrest).
    assert (Hstep : request_hook_balance q s (events (request_call x c).2)
                    = (if r_state (request_call x c).1 =? s then 1 else 0)
                      - (if r_state c =? s then 1 else 0)).
    { unfold request_call, requestState_UpdateState, requestState_locked,
        requestState_notify.
      destruct (r_state c <? rc_newState x) eqn:E; cbn.
      - rewrite Hclock, Hq. cbn. rewrite slotQueue_eqb_refl. cbn.
        destruct (r_state c =? s), (rc_newState x =? s); lia.
      - lia. }
    destruct (request_call x c) as [c1 m]. cbn [fst snd] in *.
    destruct (request_run rest c1) as [c2 tr]. cbn [fst snd] in *.
    rewrite request_hook_balance_app. lia.
Qed.

Lemma request_hooks_count_occupancy_witness :
  request_hook_balance queue0 RequestStateWait
    (request_run [ mkRequestCall RequestStateWait (Some queue0) 10;
                   mkRequestCall RequestStateDone (Some queue0) 20;
                   mkRequestCall RequestStateExec (Some queue0) 30 ]
       NewRequestState).2 = 0.
Proof.
  apply (request_hooks_count_occupancy queue0 RequestStateWait
           [ mkRequestCall RequestStateWait (Some queue0) 10;
             mkRequestCall RequestStateDone (Some queue0) 20;
             mkRequestCall RequestStateExec (Some queue0) 30 ]
           NewRequestState).
  repeat (apply List.Forall_cons; [split; reflexivity|]). apply List.Forall_nil.
Defined.

(** What one call adds to the hot signal, and what it tells about the state
    before it. *)
Lemma hot_signal_step (x : containerCall) (c : containerState) :
  container_defined (cc_newState x) -> IsZero (cc_clock x) = false ->
  container_defined (c_state c) ->
  let r := container_call x c in
  (c_state r.1 < ContainerStateStart -> c_state c < ContainerStateStart)
  /\ (c_state r.1 < ContainerStateDone -> c_state c < ContainerStateDone)
  /\ (map snd (hot_deltas (events r.2)) = []
      \/ (map snd (hot_deltas (events r.2)) = [1]
          /\ c_state c < ContainerStateStart
          /\ c_state r.1 = ContainerStateStart)
      \/ (map snd (hot_deltas (events r.2)) = [-1]
          /\ c_state c < ContainerStateDone
          /\ c_state r.1 = ContainerStateDone)).
Proof.
  intros Hn Hclock Hs r. subst r. unfold container_call.
  destruct (decide (container_legal (c_state c) (cc_newState x))) as [L | L].
  - rewrite container_update_accepted by assumption.
    cbn [fst snd events c_state].
    rewrite hot_deltas_app, hot_deltas_stats_part, hot_deltas_slot_part, app_nil_r.
    unfold container_legal, container_defined, ContainerStateMax,
      ContainerStateStart, ContainerStateDone, ContainerStateIdle,
      ContainerStatePaused, ContainerStateBusy in *.
    split_and!; [lia | lia |].
    destruct (slots (cc_call x)); [|now left].
    unfold hot_part, ContainerStateStart, ContainerStateDone.
    destruct (cc_newState x =? 2) eqn:E1; [|destruct (cc_newState x =? 6) eqn:E2].
    + apply Z.eqb_eq in E1. right; left. cbn. split_and!; [reflexivity | lia | lia].
    + apply Z.eqb_eq in E2. right; right. cbn. split_and!; [reflexivity | lia | lia].
    + now left.
  - unfold containerState_UpdateState.
    rewrite (container_locked_illegal _ _ _ L). cbn. tauto.
Qed.

Lemma hot_signal_run (calls : list containerCall) :
  forall c : containerState,
    container_defined (c_state c) ->
    Forall (fun x => container_defined (cc_newState x)
                     /\ IsZero (cc_clock x) = false) calls ->
    exists tr c' (up down : bool),
      container_run calls c = (tr, Some c')
      /\ map snd (hot_deltas tr)
         = (if up then [1] else []) ++ (if down then [-1] else [])
      /\ (up = true -> c_state c < ContainerStateStart)
      /\ (down = true -> c_state c < ContainerStateDone).
Proof.
  induction calls as [|x rest IH]; intros c Hs Hall.
  - exists [], c, false, false. cbn. split_and!; auto; discriminate.
  - inversion Hall as [|? ? [Hx Hclock] Hrest]; subst.
    destruct (container_call_defined x c Hs Hx) as (tr1 & E & Hd & _).
    destruct (hot_signal_step x c Hx Hclock Hs) as (Hlow & Hhigh & Hhot).
    destruct (IH _ Hd Hrest) as (tr2 & c' & up & down & E' & Hv & Hup & Hdown).
    cbn [container_run].
    destruct (container_call x c) as [c1 m]. cbn [fst snd] in *. subst m.
    cbn [bind events fst] in *. rewrite E'.
    destruct Hhot as [H0 | [(H1 & Hlt & Hc1) | (H1 & Hlt & Hc1)]].
    + exists (tr1 ++ tr2), c', up, down.
      rewrite hot_deltas_app, map_app, H0, Hv. cbn [app].
      split_and!; auto.
    + exists (tr1 ++ tr2), c', true, down.
      rewrite hot_deltas_app, map_app, H1, Hv.
      assert (up = false) as ->.
      { destruct up; [|reflexivity]. specialize (Hup eq_refl).
        rewrite Hc1 in Hup. lia. }
      split_and!; auto.
    + exists (tr1 ++ tr2), c', false, true.
      rewrite hot_deltas_app, map_app, H1, Hv.
      assert (up = false) as ->.
      { destruct up; [|reflexivity]. specialize (Hup eq_refl).
        rewrite Hc1 in Hup. unfold ContainerStateDone, ContainerStateStart in Hup. lia. }
      assert (down = false) as ->.
      { destruct down; [|reflexivity]. specialize (Hdown eq_refl).
        rewrite Hc1 in Hdown. lia. }
      split_and!; auto; discriminate.
Qed.

(** X12. The hot signal over the life of a container: however many calls
    with defined targets are made on a fresh tracker, with or without a slot
    queue, the hot deltas recorded are only +1 and -1, and each of the two is
    recorded at most once. *)
Theorem hot_signal_at_most_once (calls : list containerCall) :
  Forall (fun x => container_defined (cc_newState x)
                   /\ IsZero (cc_clock x) = false) calls ->
  exists tr c,
    container_run calls NewContainerState = (tr, Some c)
    /\ Forall (fun v => v = 1 \/ v = -1) (map snd (hot_deltas tr))
    /\ (count_occ Z.eq_dec (map snd (hot_deltas tr)) 1%Z <= 1)%nat
    /\ (count_occ Z.eq_dec (map snd (hot_deltas tr)) (-1)%Z <= 1)%nat.
Proof.
  intros Hall.
  destruct (hot_signal_run calls NewContainerState)
    as (tr & c & up & down & E & Hv & _); [solve_defined | exact Hall |].
  exists tr, c. split; [exact E|]. rewrite Hv.
  destruct up, down; cbn [app]; split_and!;
    try (repeat (apply List.Forall_cons; [lia|]); apply List.Forall_nil);
    vm_compute; lia.
Qed.

Lemma hot_signal_at_most_once_witness :
  exists tr c,
    container_run
      [ mkContainerCall [] ContainerStateStart call_hot 10;
        mkContainerCall [] ContainerStateStart call_hot 20;
        mkContainerCall [] ContainerStateBusy call_hot 30;
        mkContainerCall [] ContainerStateDone call_hot 40;
        mkContainerCall [] ContainerStateDone call_hot 50 ]
      NewContainerState = (tr, Some c)
    /\ (count_occ Z.eq_dec (map snd (hot_deltas tr)) 1%Z <= 1)%nat
    /\ (count_occ Z.eq_dec (map snd (hot_deltas tr)) (-1)%Z <= 1)%nat.
Proof.
  destruct (hot_signal_at_most_once
              [ mkContainerCall [] ContainerStateStart call_hot 10;
                mkContainerCall [] ContainerStateStart call_hot 20;
                mkContainerCall [] ContainerStateBusy call_hot 30;
                mkContainerCall [] ContainerStateDone call_hot 40;
                mkContainerCall [] ContainerStateDone call_hot 50 ])
    as (tr & c & E & _ & Hup & Hdown).
  - repeat (apply List.Forall_cons; [split; [solve_defined | reflexivity]|]).
    apply List.Forall_nil.
  - exists tr, c. split_and!; [exact E | exact Hup | exact Hdown].
Defined.

(** ** Any callers racing on one request tracker *)

Lemma thread_step_general (t t' : Race.thread) (lk lk' : bool)
    (c c' : requestState) (evs : list event) :
  hooks_ready t ->
  (Race.holds t <= if lk then 1 else 0)%nat ->
  Race.thread_step t lk c = Some (t', lk', c', evs) ->
  hooks_ready t'
  /\ (Race.holds t' + (if lk then 1 else 0)
      = Race.holds t + (if lk' then 1 else 0))%nat
  /\ (Race.left_steps t' < Race.left_steps t)%nat
  /\ Race.t_newState t' = Race.t_newState t
  /\ ((past_test t' = past_test t /\ c' = c)
      \/ (past_test t = false /\ past_test t' = true
          /\ r_state c' = Z.max (Race.t_newState t) (r_state c))).
Proof.
  intros Hready Hh Hs.
  destruct t as [p n sl clk now old].
  unfold Race.thread_step, hooks_ready, past_test in *.
  cbn [Race.t_pc Race.t_newState Race.t_slots Race.t_clock Race.t_now
         Race.t_oldState] in *.
  destruct p.
  - destruct lk; [discriminate|]. injection Hs as <- <- <- <-.
    cbn. split_and!; auto; try lia. intros [H | H]; discriminate H.
  - unfold requestState_locked in Hs.
    destruct (r_state c <? n) eqn:E; injection Hs as <- <- <- <-; cbn;
      [apply Z.ltb_lt in E | apply Z.ltb_ge in E];
      (split_and!; auto; try lia; try (intros [H | H]; discriminate H)).
  - injection Hs as <- <- <- <-. cbn in *.
    split_and!; auto; try lia; try (intros [H | H]; discriminate H).
    destruct lk; lia.
  - destruct (IsZero now); [|destruct sl as [q|] eqn:Q];
      injection Hs as <- <- <- <-; cbn;
      (split_and!; eauto; try lia; try (intros [H | H]; discriminate H)).
  - destruct sl as [q|]; [|discriminate]. injection Hs as <- <- <- <-. cbn.
    split_and!; eauto; lia.
  - destruct sl as [q|]; [|discriminate]. injection Hs as <- <- <- <-. cbn.
    split_and!; eauto; try lia; try (intros [H | H]; discriminate H).
  - discriminate.
Qed.

Lemma settled_ge (s0 : RequestStateType) (l : list Race.thread) :
  s0 <= settled s0 l.
Proof.
  induction l as [|t l IH]; cbn [settled]; [lia|].
  destruct (past_test t); lia.
Qed.

Lemma settled_insert_same (s0 : RequestStateType) (l : list Race.thread)
    (i : nat) (t t' : Race.thread) :
  l !! i = Some t -> past_test t' = past_test t ->
  Race.t_newState t' = Race.t_newState t ->
  settled s0 (<[i := t']> l) = settled s0 l.
Proof.
  revert i. induction l as [|x l IH]; intros [|i] Hi Hp Hn;
    simpl in *; try discriminate.
  - injection Hi as ->. now rewrite Hp, Hn.
  - now rewrite (IH _ Hi Hp Hn).
Qed.

Lemma settled_insert_pass (s0 : RequestStateType) (l : list Race.thread)
    (i : nat) (t t' : Race.thread) :
  l !! i = Some t -> past_test t = false -> past_test t' = true ->
  settled s0 (<[i := t']> l) = Z.max (Race.t_newState t') (settled s0 l).
Proof.
  revert i. induction l as [|x l IH]; intros [|i] Hi Hp Hp';
    simpl in *; try discriminate.
  - injection Hi as ->. now rewrite Hp, Hp'.
  - rewrite (IH _ Hi Hp Hp'). destruct (past_test x); lia.
Qed.

Lemma settled_all (s0 : RequestStateType) (l : list Race.thread) :
  forallb Race.returned l = true ->
  settled s0 l = foldr Z.max s0 (Race.t_newState <$> l).
Proof.
  induction l as [|t l IH]; cbn [forallb settled fmap list_fmap foldr];
    [reflexivity|].
  intros H. apply andb_true_iff in H as [Ht Hl].
  rewrite (IH Hl). unfold past_test, Race.returned in *.
  destruct (Race.t_pc t); try discriminate. reflexivity.
Qed.

Lemma race_step_inv (s0 : RequestStateType) (targets : list RequestStateType)
    (i : nat) (w w' : Race.world) :
  Race.step i w = Some w' -> race_inv s0 targets w ->
  race_inv s0 targets w' /\ (Race.fuel w' < Race.fuel w)%nat.
Proof.
  unfold Race.step.
  destruct (Race.w_threads w !! i) as [t|] eqn:Hi; [|discriminate].
  destruct (Race.thread_step t (Race.w_locked w) (Race.w_c w))
    as [[[[t' lk'] c'] evs]|] eqn:Hs; [|discriminate].
  intros Hw' (I1 & I2 & I3 & I4). injection Hw' as <-.
  pose proof (Forall_lookup_1 _ _ _ _ I2 Hi) as Hready.
  pose proof (sum_list_with_insert Race.holds _ _ _ t' Hi) as Sh.
  pose proof (sum_list_with_insert Race.left_steps _ _ _ t' Hi) as Sf.
  pose proof (sum_list_with_lookup Race.holds _ _ _ Hi) as Lh.
  rewrite I1 in Lh.
  destruct (thread_step_general _ _ _ _ _ _ _ Hready Lh Hs)
    as (Hready' & Fh & Ff & Fn & Fc).
  unfold Race.fuel, race_inv.
  cbn [Race.w_locked Race.w_c Race.w_log Race.w_threads].
  split; [|lia]. split_and!.
  - lia.
  - now apply Forall_insert.
  - rewrite list_fmap_insert, Fn, <- I3.
    apply list_insert_id. now rewrite list_lookup_fmap, Hi.
  - destruct Fc as [(Hp & ->) | (Hp & Hp' & Hc)].
    + now rewrite (settled_insert_same _ _ _ _ _ Hi Hp Fn).
    + rewrite (settled_insert_pass _ _ _ _ _ Hi Hp Hp'), Fn, Hc, I4. lia.
Qed.

Lemma race_run_inv (s0 : RequestStateType) (targets : list RequestStateType)
    (sched : list nat) :
  forall w, race_inv s0 targets w -> race_inv s0 targets (Race.run sched w).
Proof.
  induction sched as [|i rest IH]; intros w Hw; cbn [Race.run]; [exact Hw|].
  apply IH. destruct (Race.step i w) as [w'|] eqn:E; cbn; [|exact Hw].
  exact (proj1 (race_step_inv _ _ _ _ _ E Hw)).
Qed.

Lemma race_can_step (s0 : RequestStateType) (targets : list RequestStateType)
    (w : Race.world) :
  race_inv s0 targets w -> Race.all_returned w = false ->
  exists i w', Race.step i w = Some w'.
Proof.
  intros (I1 & I2 & _) Hr.
  assert (exists i t, Race.w_threads w !! i = Some t
                      /\ Race.returned t = false
                      /\ (Race.t_pc t = Race.AtLock -> Race.w_locked w = false))
    as (i & t & Hi & Ht & Hl).
  { destruct (Race.w_locked w) eqn:L.
    - destruct (sum_list_with_pos Race.holds (Race.w_threads w))
        as (i & t & Hi & Hh); [lia|].
      exists i, t. unfold Race.holds, Race.returned in *.
      destruct (Race.t_pc t); try lia; split_and!; auto; discriminate.
    - destruct (forallb_false_lookup _ _ Hr) as (i & t & Hi & Ht).
      exists i, t. auto. }
  pose proof (Forall_lookup_1 _ _ _ _ I2 Hi) as Hready.
  assert (is_Some (Race.thread_step t (Race.w_locked w) (Race.w_c w)))
    as [[[[t' lk'] c'] evs] Hs].
  { unfold Race.thread_step, Race.returned, hooks_ready in *.
    destruct (Race.t_pc t) eqn:P; try discriminate.
    - rewrite Hl by reflexivity. eauto.
    - destruct (requestState_locked _ _ _). eauto.
    - eauto.
    - destruct (IsZero _); [eauto|]. destruct (Race.t_slots t); eauto.
    - destruct Hready as [q Q]; [now left|]. rewrite Q. eauto.
    - destruct Hready as [q Q]; [now right|]. rewrite Q. eauto. }
  exists i. unfold Race.step. rewrite Hi, Hs. eauto.
Qed.

Lemma race_completes (s0 : RequestStateType) (targets : list RequestStateType)
    (k : nat) :
  forall w, (Race.fuel w <= k)%nat -> race_inv s0 targets w ->
            exists sched, Race.all_returned (Race.run sched w) = true.
Proof.
  induction k as [|k IH]; intros w Hk Hw;
    (destruct (Race.all_returned w) eqn:R; [exists []; exact R|]);
    destruct (race_can_step _ _ w Hw R) as (i & w' & Hs);
    destruct (race_step_inv _ _ _ _ _ Hs Hw) as [Hw' Hf].
  - lia.
  - destruct (IH w') as [sched Hsched]; [lia | exact Hw' |].
    exists (i :: sched). cbn [Race.run]. now rewrite Hs.
Qed.

Lemma callers_inv (calls : list requestCall) (c : requestState) :
  race_inv (r_state c) (rc_newState <$> calls) (callers calls c).
Proof.
  unfold race_inv, callers.
  cbn [Race.w_locked Race.w_c Race.w_log Race.w_threads].
  split_and!.
  - induction calls; simpl; auto.
  - apply Forall_fmap, Forall_forall. intros x _ [H | H]; discriminate H.
  - rewrite <- list_fmap_compose. reflexivity.
  - induction calls; simpl; auto.
Qed.

Lemma foldr_max_shift (s n : Z) (l : list Z) :
  foldr Z.max (Z.max s n) l = Z.max n (foldr Z.max s l).
Proof. induction l as [|x l IH]; cbn [foldr]; lia. Qed.

Lemma foldr_max_cons_shift (s n : Z) (l : list Z) :
  foldr Z.max (Z.max s n) l = foldr Z.max s (n :: l).
Proof. cbn [foldr]. apply foldr_max_shift. Qed.

(** One after the other, the calls leave the largest of the initial state
    and the targets. *)
Lemma request_run_state (calls : list requestCall) :
  forall c : requestState,
    r_state (request_run calls c).1
    = foldr Z.max (r_state c) (rc_newState <$> calls).
Proof.
  induction calls as [|x rest IH]; intros c; [reflexivity|].
  cbn [request_run fmap list_fmap]. specialize (IH (request_call x c).1).
  assert (Hstep : r_state (request_call x c).1 = Z.max (r_state c) (rc_newState x)).
  { unfold request_call, requestState_UpdateState, requestState_locked.
    destruct (r_state c <? rc_newState x) eqn:E; cbn;
      [apply Z.ltb_lt in E | apply Z.ltb_ge in E]; lia. }
  destruct (request_call x c) as [c1 m]. cbn [fst] in *.
  destruct (request_run rest c1) as [c2 tr]. cbn [fst] in *.
  rewrite IH, Hstep. apply foldr_max_cons_shift.
Qed.

(** X13. Racing callers converge.  Let any number of callers invoke
    [UpdateState] concurrently on one request tracker, each with its own
    target, slot queue and clock reading, interleaved in any way.  Never are
    two callers inside the locked region; the state never falls below where
    it started; once all callers have returned the tracker stands at the
    largest of its initial state and all the targets, which is also where
    the same calls made one after the other leave it; and every
    interleaving can be continued until all callers have returned. *)
Theorem racing_callers_converge
    (calls : list requestCall) (c : requestState) (sched : list nat) :
  let w := Race.run sched (callers calls c) in
  (sum_list_with Race.holds (Race.w_threads w) <= 1)%nat
  /\ r_state c <= r_state (Race.w_c w)
  /\ (Race.all_returned w = true ->
      r_state (Race.w_c w) = foldr Z.max (r_state c) (rc_newState <$> calls)
      /\ r_state (Race.w_c w) = r_state (request_run calls c).1)
  /\ exists rest,
       Race.all_returned (Race.run (sched ++ rest) (callers calls c)) = true.
Proof.
  intros w.
  assert (Hw : race_inv (r_state c) (rc_newState <$> calls) w)
    by apply race_run_inv, callers_inv.
  pose proof Hw as (I1 & _ & I3 & I4).
  split_and!.
  - rewrite I1. destruct (Race.w_locked w); lia.
  - rewrite I4. apply settled_ge.
  - intros Hr. rewrite request_run_state.
    assert (r_state (Race.w_c w)
            = foldr Z.max (r_state c) (rc_newState <$> calls)) as ->; [|auto].
    rewrite I4, <- I3. now apply settled_all.
  - destruct (race_completes (r_state c) (rc_newState <$> calls)
                (Race.fuel w) w) as [rest Hrest];
      [lia | exact Hw |].
    exists rest. subst w. now rewrite run_app.
Qed.

Lemma racing_callers_converge_witness :
  let calls := [ mkRequestCall RequestStateWait (Some queue0) 11;
                 mkRequestCall RequestStateDone None 12;
                 mkRequestCall RequestStateExec (Some queue0) 13 ] in
  let sched := [2; 0; 1; 2; 2; 0; 2; 0; 1; 2; 0; 1; 2; 1; 1; 0; 0; 1; 1]%nat in
  r_state (Race.w_c (Race.run sched (callers calls NewRequestState)))
  = RequestStateDone.
Proof.
  intros calls sched.
  destruct (racing_callers_converge calls NewRequestState sched)
    as (_ & _ & H & _).
  destruct (H eq_refl) as [E _]. exact E.
Defined.

(** ** How long a state lasted *)

(** X14. The recorded duration never overstates.  When the clock has not
    run backwards since the state was entered, and the elapsed time fits a
    [Duration], the one duration an accepted call records for the state it
    leaves is the number of whole milliseconds elapsed: it is not negative,
    and the elapsed time exceeds it by less than a millisecond. *)
Theorem duration_is_whole_milliseconds
    (ctx : Context) (newState : ContainerStateType) (cl : call)
    (clock : Time) (c : containerState) :
  container_defined (c_state c) -> container_defined newState ->
  IsZero clock = false -> container_legal (c_state c) newState ->
  tracked_state (c_state c) = true ->
  c_start c <= clock -> clock - c_start c <= maxDuration ->
  exists d,
    duration_obs (events (containerState_UpdateState ctx newState cl clock c).2)
    = [(c_state c, d)]
    /\ 0 <= d
    /\ d * 1000000 <= clock - c_start c < (d + 1) * 1000000.
Proof.
  intros Hs Hn Hclock L Ht Hmono Hfit.
  rewrite container_update_accepted by assumption.
  cbn [snd events fst].
  rewrite duration_obs_app, duration_obs_slot_part. cbn [app].
  unfold stats_part. rewrite Ht.
  rewrite Time_Sub_exact by (unfold minDuration; lia).
  unfold Duration_div, Millisecond.
  exists (Z.quot (clock - c_start c) 1000000).
  split; [destruct (tracked_state newState); reflexivity|].
  rewrite Z.quot_div_nonneg by lia.
  pose proof (Z.div_mod (clock - c_start c) 1000000 ltac:(lia)) as Hdm.
  pose proof (Z.mod_pos_bound (clock - c_start c) 1000000 ltac:(lia)) as Hb.
  pose proof (Z.div_pos (clock - c_start c) 1000000 ltac:(lia) ltac:(lia)).
  lia.
Qed.

Lemma duration_is_whole_milliseconds_witness :
  exists d,
    duration_obs
      (events (containerState_UpdateState [] ContainerStateIdle call_hot 8500000
                 (mkContainerState ContainerStateStart 5000000)).2)
    = [(ContainerStateStart, d)]
    /\ 0 <= d
    /\ d * 1000000 <= 8500000 - 5000000 < (d + 1) * 1000000.
Proof.
  apply (duration_is_whole_milliseconds [] ContainerStateIdle call_hot 8500000
           (mkContainerState ContainerStateStart 5000000));
    [ solve_defined | solve_defined | reflexivity | left; reflexivity
    | reflexivity | cbv; intros H; discriminate H
    | cbv; intros H; discriminate H ].
Defined.
